(** * DDS Recorder: the size-bounded rolling MCAP writer and the handler's
      ingest gate.

    A shallow embedding of [McapWriter.cpp] (package ddsrecorder_participants).
    Member functions become computations in a state-and-exception monad over
    the writer object: a C++ exception leaves every assignment made before the
    [throw] in place, so a computation returns the final object together with
    either a value or the exception in flight.  Calls on the collaborators of
    the writer (size tracker, file tracker, MCAP codec, monitor, disk-full
    callback) are additionally appended to a log, which is what the ordering
    properties are stated on. *)

From Stdlib Require Import NArith ZArith List Bool Lia String.
From Stdlib Require Import Strings.Byte.
Import ListNotations.
Open Scope N_scope.

Set Implicit Arguments.

(** ** Machine arithmetic *)

(** [std::uint64_t] arithmetic wraps modulo 2^64. *)
Definition two64 : N := 18446744073709551616.

Definition wrap64 (x : N) : N := x mod two64.

Definition add64 (a b : N) : N := wrap64 (a + b).

(** Unsigned subtraction: [a - b] computed modulo 2^64 (operands below 2^64). *)
Definition sub64 (a b : N) : N := wrap64 (a + two64 - wrap64 b).

(** [unsigned int] is 32 bits wide. *)
Definition two32 : N := 4294967296.

(** [mcap::SchemaId] and [mcap::ChannelId] are 16 bits wide. *)
Definition two16 : N := 65536.

(** ** Data *)

(** [mcap::Schema]. *)
Record Schema := mkSchema {
  schema_id : N;
  schema_name : string;
  schema_encoding : string;
  schema_data : list byte
}.

(** [mcap::Channel]. *)
Record Channel := mkChannel {
  channel_id : N;
  channel_topic : string;
  channel_schemaId : N
}.

(** [McapMessage]: the fields of [mcap::Message] the writer looks at. *)
Record McapMessage := mkMessage {
  msg_sequence : N;
  msg_channelId : N;
  msg_logTime : N;
  msg_dataSize : N
}.

(** [mcap::Metadata]. *)
Record Metadata := mkMetadata {
  metadata_name : string;
  metadata_entries : list (string * string)
}.

(** [mcap::Attachment]. *)
Record Attachment := mkAttachment {
  attachment_name : string;
  attachment_data : list byte;
  attachment_dataSize : N
}.

(** [fastdds::rtps::SerializedPayload_t]. *)
Record SerializedPayload := mkPayload {
  payload_data : list byte;
  payload_length : N
}.

(** [OutputSettings]: the three fields read by the writer. *)
Record OutputSettings := mkSettings {
  max_file_size : N;
  max_size : N;
  safety_margin : N
}.

(** Exceptions that cross the member functions of the writer. *)
Inductive Exn :=
| FullFileException (data_size_to_write : N)
| FullDiskException
| InvalidArgument
| InitializationException.

(** Calls made on the collaborators, in program order. *)
Inductive Event :=
| EvNewFile (min_file_size : N)
| EvOpen (filename : N) (ok : bool)
| EvInit (max_sz margin : N)
| EvReserve (size : N)
| EvReserveAttachment (size size_to_remove : N)
| EvAddSchema (s : Schema)
| EvAddChannel (c : Channel)
| EvWriteMessage (m : McapMessage) (ok : bool)
| EvWriteMetadata (m : Metadata) (ok : bool)
| EvWriteAttachment (a : Attachment) (ok : bool)
| EvCommit (size : N)
| EvSetFileSize (size : N)
| EvResetTracker
| EvClose
| EvCloseFile
| EvMonitorError (what : string)
| EvDiskFullCallback.

(** The calls among them that are made on the MCAP codec [writer_]. *)
Definition is_codec_call (e : Event) : bool :=
  match e with
  | EvOpen _ _ | EvAddSchema _ | EvAddChannel _ | EvWriteMessage _ _
  | EvWriteMetadata _ _ | EvWriteAttachment _ _ | EvClose => true
  | _ => false
  end.

Definition codec_calls (l : list Event) : list Event :=
  filter is_codec_call l.

(** ** The state-and-exception monad *)

Inductive Res (A : Type) :=
| Ok (a : A)
| Raise (e : Exn).

Arguments Raise {A} e.

Definition M (S A : Type) : Type := S -> Res A * S.

Definition ret {S A} (a : A) : M S A := fun s => (Ok a, s).

Definition throw {S A} (e : Exn) : M S A := fun s => (Raise e, s).

Definition bind {S A B} (m : M S A) (k : A -> M S B) : M S B :=
  fun s => match m s with
           | (Ok a, s') => k a s'
           | (Raise e, s') => (Raise e, s')
           end.

(** [try m catch h]: [h e = None] lets exception [e] pass. *)
Definition try_catch {S A} (m : M S A) (h : Exn -> option (M S A)) : M S A :=
  fun s => match m s with
           | (Ok a, s') => (Ok a, s')
           | (Raise e, s') =>
               match h e with
               | Some k => k s'
               | None => (Raise e, s')
               end
           end.

Definition get {S} : M S S := fun s => (Ok s, s).

Definition modify {S} (f : S -> S) : M S unit := fun s => (Ok tt, f s).

Declare Scope writer_scope.
Delimit Scope writer_scope with writer.

Notation "x <- c1 ;; c2" := (bind c1 (fun x => c2))
  (at level 61, c1 at next level, right associativity) : writer_scope.
Notation "c1 ;; c2" := (bind c1 (fun _ => c2))
  (at level 61, right associativity) : writer_scope.

(** Loop over a container: the body runs on each element in order and the
    first exception ends the loop. *)
Fixpoint for_each {S A} (body : A -> M S unit) (l : list A) : M S unit :=
  match l with
  | [] => ret tt
  | x :: l' => bind (body x) (fun _ => for_each body l')
  end.

(** [rounds n step x]: up to [2 ^ n] rounds of [step], each of which returns
    the position from which the next round starts, or [None] when the loop
    is over. *)
Fixpoint rounds {St X} (n : nat) (step : X -> M St (option X)) (x : X)
  : M St (option X) :=
  match n with
  | O => step x
  | S n' =>
      bind (rounds n' step x)
           (fun r => match r with
                     | Some x' => rounds n' step x'
                     | None => ret None
                     end)
  end.

(** ** [std::map] with integer keys, kept sorted by key *)

Fixpoint map_assign {V} (k : N) (v : V) (m : list (N * V)) : list (N * V) :=
  match m with
  | [] => [(k, v)]
  | (k', v') :: m' =>
      if k <? k' then (k, v) :: m
      else if k =? k' then (k, v) :: m'
      else (k', v') :: map_assign k v m'
  end.

(** [std::map::find]. *)
Fixpoint map_find {V} (k : N) (m : list (N * V)) : option V :=
  match m with
  | [] => None
  | (k', v) :: m' => if k =? k' then Some v else map_find k m'
  end.

(** [std::map::lower_bound]: the first element whose key is not below [k]. *)
Fixpoint map_lower_bound {V} (k : N) (m : list (N * V)) : option (N * V) :=
  match m with
  | [] => None
  | (k', v) :: m' => if k <=? k' then Some (k', v) else map_lower_bound k m'
  end.

(** [for (auto& [k, v] : m) body] over a [std::map] data member [m] whose
    keys are 16 bits wide, where the body is handed a reference to the
    element and may store into the map (it never erases).  The traversal
    goes up the keys: each round handles the first element at or behind the
    position reached and moves the position behind its key, so that an
    element is met exactly when it is in the map at the time the traversal
    passes its key.  The position grows by one at least in each round:
    [2 ^ 16] rounds exhaust the keys. *)
Definition for_each_in_map {St V} (m : St -> list (N * V))
  (body : N -> V -> M St unit) : M St unit :=
  bind (rounds 16
          (fun k =>
             bind get (fun s =>
               match map_lower_bound k (m s) with
               | Some (k', v) =>
                   bind (body k' v) (fun _ => ret (Some (N.succ k')))
               | None => ret None
               end))
          0)
       (fun _ => ret tt).

(** ** What is declared outside this translation unit *)

(** [MIN_MCAP_SIZE], [MCAP_FILE_OVERHEAD], the on-disk record size of each
    item kind, and the two version macros written into the metadata record.
    The size of a schema or channel record is a function of the fields other
    than the id, which has a fixed width.

    [full_file_is_full_disk]: whether the class [FullFileException] is
    derived from [FullDiskException].  Both classes are declared in headers
    that are not part of the sources at hand, and a handler for a class also
    catches the classes derived from it.

    [codec_schema_id calls s] and [codec_channel_id calls ch]: the id the MCAP
    library writes into the record it is handed by [addSchema] or
    [addChannel], after the calls [calls] it has seen before.  The library
    takes the record by mutable reference and is not part of the sources at
    hand.

    All of them are taken as parameters. *)
Record Constants := mkConstants {
  MIN_MCAP_SIZE : N;
  MCAP_FILE_OVERHEAD : N;
  message_size : N -> N;
  attachment_size : N -> N;
  metadata_size : Metadata -> N;
  schema_record_size : string -> string -> list byte -> N;
  channel_record_size : string -> N -> N;
  DDSRECORDER_PARTICIPANTS_VERSION_STRING : string;
  DDSRECORDER_PARTICIPANTS_COMMIT_HASH : string;
  full_file_is_full_disk : bool;
  codec_schema_id : list Event -> Schema -> N;
  codec_channel_id : list Event -> Channel -> N
}.

Definition schema_size (c : Constants) (s : Schema) : N :=
  schema_record_size c (schema_name s) (schema_encoding s) (schema_data s).

Definition channel_size (c : Constants) (ch : Channel) : N :=
  channel_record_size c (channel_topic ch) (channel_schemaId ch).

Definition VERSION_METADATA_NAME : string := "version".
Definition VERSION_METADATA_RELEASE : string := "release".
Definition VERSION_METADATA_COMMIT : string := "commit".
Definition DYNAMIC_TYPES_ATTACHMENT_NAME : string := "dynamic_types".

(** ** SizeTracker *)

Module SizeTracker.

(** Modelled from the spec: the class [McapSizeTracker] (its source file is
    not part of the sources at hand).  "Tracks written bytes plus
    reserved-but-unwritten bytes against a per-file ceiling; raises a FileFull
    condition on reservation overflow."  [potential] is written plus reserved
    bytes; [pending_attachment] is the record size of the attachment whose
    reservation was granted last; it enters the minimum size of a file. *)
Record t := mk {
  ceiling : N;
  margin : N;
  potential : N;
  written : N;
  pending_attachment : N
}.

(** Modelled from the spec: the tracker of a freshly constructed writer. *)
Definition create (c : Constants) : t :=
  mk 0 0 (MCAP_FILE_OVERHEAD c) (MCAP_FILE_OVERHEAD c) 0.

(** Modelled from the spec: "init(max_file_size, safety_margin): begin
    accounting; internal baseline accounts for MCAP framing overhead". *)
Definition init (c : Constants) (max_sz mrg : N) (s : t) : t :=
  mk max_sz mrg (MCAP_FILE_OVERHEAD c) (MCAP_FILE_OVERHEAD c)
     (pending_attachment s).

(** Modelled from the spec: "reserve; raise FileFull with data_size_to_write
    = item.size if it would exceed max_file_size - safety_margin". *)
Definition to_write (size : N) (s : t) : Res unit * t :=
  if ceiling s - margin s <? potential s + size
  then (Raise (FullFileException size), s)
  else (Ok tt, mk (ceiling s) (margin s) (potential s + size) (written s)
                  (pending_attachment s)).

(** Modelled from the spec: the attachment reservation of
    [update_dynamic_types], "the delta against the current file's budget
    (difference between new and previous payload lengths)"; [size_to_remove]
    is the record size of the previously staged attachment, 0 when the call
    names none. *)
Definition attachment_to_write (size size_to_remove : N) (s : t)
  : Res unit * t :=
  if ceiling s - margin s <? potential s + size - size_to_remove
  then (Raise (FullFileException size), s)
  else (Ok tt, mk (ceiling s) (margin s)
                  (potential s + size - size_to_remove) (written s) size).

(** Modelled from the spec: "convert reservation to committed bytes". *)
Definition item_written (size : N) (s : t) : t :=
  mk (ceiling s) (margin s) (potential s) (written s + size)
     (pending_attachment s).

(** Modelled from the spec: "minimum viable size for an empty-but-closeable
    file (base + metadata + pending attachment if any)"; base plus metadata
    is the constant [MIN_MCAP_SIZE]. *)
Definition get_min_mcap_size (c : Constants) (s : t) : N :=
  MIN_MCAP_SIZE c + pending_attachment s.

Definition get_potential_mcap_size (s : t) : N := potential s.

Definition get_written_mcap_size (s : t) : N := written s.

(** Modelled from the spec: "reset(filename): prepare for next file". *)
Definition reset (c : Constants) (s : t) : t :=
  mk (ceiling s) (margin s) (MCAP_FILE_OVERHEAD c) (MCAP_FILE_OVERHEAD c)
     (pending_attachment s).

End SizeTracker.

(** ** FileTracker *)

Module FileTracker.

(** Modelled from the spec: the class [FileTracker] ("provides filenames,
    tracks cumulative written bytes against a disk ceiling, raises DiskFull
    when no new file may be opened"; its source file is not part of the
    sources at hand).  A file is a pair of its name, here a number, and its
    recorded size. *)
Record t := mk {
  closed_files : list (N * N);
  current_file : option (N * N);
  next_name : N
}.

Definition create : t := mk [] None 0.

Definition sum_sizes (l : list (N * N)) : N :=
  fold_right (fun f acc => snd f + acc) 0 l.

(** Modelled from the spec: [get_total_size], the cumulative bytes of all
    files of the run, the current one included. *)
Definition get_total_size (s : t) : N :=
  sum_sizes (closed_files s) +
  match current_file s with Some f => snd f | None => 0 end.

Definition get_current_filename (s : t) : N :=
  match current_file s with Some f => fst f | None => 0 end.

Definition retire (s : t) : list (N * N) :=
  match current_file s with
  | Some f => closed_files s ++ [f]
  | None => closed_files s
  end.

(** Modelled from the spec: "new_file(min_size): filename (or raises when
    min_size > max_file_size or cumulative budget exhausted)".  The first
    failure is the [std::invalid_argument] the writer catches, the second the
    DiskFull condition. *)
Definition new_file (cfg : OutputSettings) (min_size : N) (s : t)
  : Res unit * t :=
  if max_file_size cfg <? min_size then (Raise InvalidArgument, s)
  else if max_size cfg <? get_total_size s + min_size
       then (Raise FullDiskException, s)
       else (Ok tt, mk (retire s) (Some (next_name s, 0)) (next_name s + 1)).

(** Modelled from the spec: [set_current_file_size(n)]. *)
Definition set_current_file_size (n : N) (s : t) : t :=
  match current_file s with
  | Some f => mk (closed_files s) (Some (fst f, n)) (next_name s)
  | None => s
  end.

(** Modelled from the spec: [close_file()]. *)
Definition close_file (s : t) : t :=
  mk (retire s) None (next_name s).

End FileTracker.

(** ** McapWriter *)

(** The data members of [McapWriter].  [on_disk_full_lambda_] records whether
    a callback is installed ([nullptr] otherwise); its invocation is the log
    entry [EvDiskFullCallback].  [log] is the history of calls made on the
    collaborators. *)
Record McapWriter := mkWriter {
  configuration_ : OutputSettings;
  file_tracker_ : FileTracker.t;
  record_types_ : bool;
  enabled_ : bool;
  size_tracker_ : SizeTracker.t;
  dynamic_types_payload_ : option SerializedPayload;
  schemas_ : list (N * Schema);
  channels_ : list (N * Channel);
  on_disk_full_lambda_ : bool;
  log : list Event
}.

Definition set_file_tracker (f : FileTracker.t) (w : McapWriter) :=
  mkWriter (configuration_ w) f (record_types_ w) (enabled_ w)
    (size_tracker_ w) (dynamic_types_payload_ w) (schemas_ w) (channels_ w)
    (on_disk_full_lambda_ w) (log w).

Definition set_enabled (b : bool) (w : McapWriter) :=
  mkWriter (configuration_ w) (file_tracker_ w) (record_types_ w) b
    (size_tracker_ w) (dynamic_types_payload_ w) (schemas_ w) (channels_ w)
    (on_disk_full_lambda_ w) (log w).

Definition set_size_tracker (s : SizeTracker.t) (w : McapWriter) :=
  mkWriter (configuration_ w) (file_tracker_ w) (record_types_ w) (enabled_ w)
    s (dynamic_types_payload_ w) (schemas_ w) (channels_ w)
    (on_disk_full_lambda_ w) (log w).

Definition set_payload (p : option SerializedPayload) (w : McapWriter) :=
  mkWriter (configuration_ w) (file_tracker_ w) (record_types_ w) (enabled_ w)
    (size_tracker_ w) p (schemas_ w) (channels_ w)
    (on_disk_full_lambda_ w) (log w).

Definition set_schemas (m : list (N * Schema)) (w : McapWriter) :=
  mkWriter (configuration_ w) (file_tracker_ w) (record_types_ w) (enabled_ w)
    (size_tracker_ w) (dynamic_types_payload_ w) m (channels_ w)
    (on_disk_full_lambda_ w) (log w).

Definition set_channels (m : list (N * Channel)) (w : McapWriter) :=
  mkWriter (configuration_ w) (file_tracker_ w) (record_types_ w) (enabled_ w)
    (size_tracker_ w) (dynamic_types_payload_ w) (schemas_ w) m
    (on_disk_full_lambda_ w) (log w).

Definition set_lambda (b : bool) (w : McapWriter) :=
  mkWriter (configuration_ w) (file_tracker_ w) (record_types_ w) (enabled_ w)
    (size_tracker_ w) (dynamic_types_payload_ w) (schemas_ w) (channels_ w)
    b (log w).

Definition set_log (l : list Event) (w : McapWriter) :=
  mkWriter (configuration_ w) (file_tracker_ w) (record_types_ w) (enabled_ w)
    (size_tracker_ w) (dynamic_types_payload_ w) (schemas_ w) (channels_ w)
    (on_disk_full_lambda_ w) l.

(** The argument of the overloaded [write] and [write_nts_]. *)
Inductive Item :=
| IAttachment (a : Attachment)
| IChannel (ch : Channel)
| IMessage (m : McapMessage)
| IMetadata (md : Metadata)
| ISchema (s : Schema).

(** Member functions of the writer. *)
Definition W : Type -> Type := M McapWriter.

Section Writer.

(** The constants of the build and the codec: [codec_status h] is the status
    ([true] for ok) the MCAP library returns to the next [open] or [write]
    made after the history [h]. *)
Variable c : Constants.
Variable codec_status : list Event -> bool.

Local Open Scope writer_scope.

(** Append a call to the log. *)
Definition emit (e : Event) : W unit :=
  modify (fun w => set_log (log w ++ [e]) w).

(** A codec call that returns a status. *)
Definition codec (call : bool -> Event) : W bool :=
  fun w => let ok := codec_status (log w) in
           (Ok ok, set_log (log w ++ [call ok]) w).

(** A throwing call on [size_tracker_]. *)
Definition tracker_call (f : SizeTracker.t -> Res unit * SizeTracker.t)
  : W unit :=
  fun w => let r := f (size_tracker_ w) in
           (fst r, set_size_tracker (snd r) w).

(** A call on [size_tracker_] that cannot throw. *)
Definition tracker_do (f : SizeTracker.t -> SizeTracker.t) : W unit :=
  modify (fun w => set_size_tracker (f (size_tracker_ w)) w).

(** [size_tracker_.schema_to_write(s)], [channel_to_write(ch)],
    [message_to_write(n)] and [metadata_to_write(md)]: the reservation of the
    item's record size, which the caller computes with the functions of
    [Constants]. *)
Definition item_to_write (size : N) : W unit :=
  emit (EvReserve size) ;; tracker_call (SizeTracker.to_write size).

(** [size_tracker_.attachment_to_write(length)] and
    [size_tracker_.attachment_to_write(length, length_to_remove)], on record
    sizes; the call with one argument removes nothing. *)
Definition attachment_to_write (size size_to_remove : N) : W unit :=
  emit (EvReserveAttachment size size_to_remove) ;;
  tracker_call (SizeTracker.attachment_to_write size size_to_remove).

(** [size_tracker_.schema_written(s)] and its siblings for the other item
    kinds. *)
Definition item_written (size : N) : W unit :=
  emit (EvCommit size) ;; tracker_do (SizeTracker.item_written size).

(** [file_tracker_->set_current_file_size(n)]. *)
Definition set_current_file_size (n : N) : W unit :=
  emit (EvSetFileSize n) ;;
  modify (fun w =>
    set_file_tracker (FileTracker.set_current_file_size n (file_tracker_ w)) w).

(** [file_tracker_->set_current_file_size(size_tracker_.get_potential_mcap_size())]. *)
Definition record_potential_size : W unit :=
  w <- get ;;
  set_current_file_size (SizeTracker.get_potential_mcap_size (size_tracker_ w)).

(** [write_nts_(const mcap::Attachment&)]. *)
Definition write_nts_attachment (a : Attachment) : W unit :=
  ok <- codec (EvWriteAttachment a) ;;
  if negb ok then ret tt
  else
    item_written (attachment_size c (attachment_dataSize a)) ;;
    record_potential_size.

(** The channel as [writer_.addChannel] leaves it: the codec is handed a
    mutable reference to it ([const_cast]) and writes the id. *)
Definition added_channel (w : McapWriter) (ch : Channel) : Channel :=
  mkChannel (codec_channel_id c (codec_calls (log w)) ch mod two16)
    (channel_topic ch) (channel_schemaId ch).

(** [write_nts_(const mcap::Channel&)].  [home] tells where the record handed
    in lives: [Some k] when it is the element of [channels_] under key [k]
    (the loop of [write_channels_nts_] hands in a reference to it), so that
    the id the codec writes lands in the map itself; [None] when it is an
    object of the caller.  [channels_[channel.id] = channel] reads the record
    after the codec call. *)
Definition write_nts_channel_at (home : option N) (ch : Channel) : W unit :=
  item_to_write (channel_size c ch) ;;
  w <- get ;;
  emit (EvAddChannel ch) ;;
  match home with
  | Some k =>
      modify (fun w' =>
        set_channels (map_assign k (added_channel w ch) (channels_ w')) w')
  | None => ret tt
  end ;;
  item_written (channel_size c (added_channel w ch)) ;;
  record_potential_size ;;
  modify (fun w' =>
    set_channels (map_assign (channel_id (added_channel w ch))
                    (added_channel w ch) (channels_ w')) w').

Definition write_nts_channel (ch : Channel) : W unit :=
  write_nts_channel_at None ch.

(** [write_nts_(const McapMessage&)]. *)
Definition write_nts_message (m : McapMessage) : W unit :=
  w <- get ;;
  if negb (enabled_ w) then ret tt
  else
    item_to_write (message_size c (msg_dataSize m)) ;;
    ok <- codec (EvWriteMessage m) ;;
    if negb ok then ret tt
    else
      item_written (message_size c (msg_dataSize m)) ;;
      record_potential_size.

(** [write_nts_(const mcap::Metadata&)]. *)
Definition write_nts_metadata (md : Metadata) : W unit :=
  item_to_write (metadata_size c md) ;;
  ok <- codec (EvWriteMetadata md) ;;
  if negb ok then ret tt
  else
    item_written (metadata_size c md) ;;
    record_potential_size.

(** The schema as [writer_.addSchema] leaves it. *)
Definition added_schema (w : McapWriter) (s : Schema) : Schema :=
  mkSchema (codec_schema_id c (codec_calls (log w)) s mod two16)
    (schema_name s) (schema_encoding s) (schema_data s).

(** [write_nts_(const mcap::Schema&)], with [home] as for channels.
    [schemas_[schema.id] = schema] reads the record after the codec call. *)
Definition write_nts_schema_at (home : option N) (s : Schema) : W unit :=
  item_to_write (schema_size c s) ;;
  w <- get ;;
  emit (EvAddSchema s) ;;
  match home with
  | Some k =>
      modify (fun w' =>
        set_schemas (map_assign k (added_schema w s) (schemas_ w')) w')
  | None => ret tt
  end ;;
  item_written (schema_size c (added_schema w s)) ;;
  record_potential_size ;;
  modify (fun w' =>
    set_schemas (map_assign (schema_id (added_schema w s))
                   (added_schema w s) (schemas_ w')) w').

Definition write_nts_schema (s : Schema) : W unit :=
  write_nts_schema_at None s.

Definition write_nts_ (i : Item) : W unit :=
  match i with
  | IAttachment a => write_nts_attachment a
  | IChannel ch => write_nts_channel ch
  | IMessage m => write_nts_message m
  | IMetadata md => write_nts_metadata md
  | ISchema s => write_nts_schema s
  end.

(** [write_attachment_nts_()]: the staged payload becomes the attachment
    named [dynamic_types]; nothing is written when no payload is staged
    (the callers check that one is). *)
Definition write_attachment_nts_ : W unit :=
  w <- get ;;
  match dynamic_types_payload_ w with
  | Some p =>
      write_nts_ (IAttachment
        (mkAttachment DYNAMIC_TYPES_ATTACHMENT_NAME (payload_data p)
                      (payload_length p)))
  | None => ret tt
  end.

(** [write_channels_nts_()]: a loop over [channels_] in key order whose body
    is handed a reference to the element. *)
Definition write_channels_nts_ : W unit :=
  for_each_in_map channels_ (fun k ch => write_nts_channel_at (Some k) ch).

Definition version_metadata : Metadata :=
  mkMetadata VERSION_METADATA_NAME
    [(VERSION_METADATA_COMMIT, DDSRECORDER_PARTICIPANTS_COMMIT_HASH c);
     (VERSION_METADATA_RELEASE, DDSRECORDER_PARTICIPANTS_VERSION_STRING c)].

(** [write_metadata_nts_()]. *)
Definition write_metadata_nts_ : W unit :=
  write_nts_ (IMetadata version_metadata).

(** [write_schemas_nts_()]: a loop over [schemas_] in key order, as
    [write_channels_nts_]. *)
Definition write_schemas_nts_ : W unit :=
  for_each_in_map schemas_ (fun k s => write_nts_schema_at (Some k) s).

(** The ceiling [open_new_file_nts_] hands to [size_tracker_.init]. *)
Definition new_file_ceiling (w : McapWriter) : N :=
  N.min (max_file_size (configuration_ w))
        (sub64 (max_size (configuration_ w))
               (FileTracker.get_total_size (file_tracker_ w))).

(** [file_tracker_->new_file(min_file_size)]. *)
Definition new_file (min_file_size : N) : W unit :=
  emit (EvNewFile min_file_size) ;;
  fun w => let r := FileTracker.new_file (configuration_ w) min_file_size
                      (file_tracker_ w) in
           (fst r, set_file_tracker (snd r) w).

(** [open_new_file_nts_(min_file_size)]. *)
Definition open_new_file_nts_ (min_file_size : N) : W unit :=
  try_catch (new_file min_file_size)
    (fun e => match e with
              | InvalidArgument => Some (throw FullDiskException)
              | _ => None
              end) ;;
  w <- get ;;
  status <- codec (EvOpen (FileTracker.get_current_filename (file_tracker_ w))) ;;
  if negb status then throw InitializationException
  else
    w <- get ;;
    emit (EvInit (new_file_ceiling w) (safety_margin (configuration_ w))) ;;
    tracker_do (SizeTracker.init c (new_file_ceiling w)
                  (safety_margin (configuration_ w))) ;;
    write_metadata_nts_ ;;
    write_schemas_nts_ ;;
    write_channels_nts_ ;;
    w <- get ;;
    match dynamic_types_payload_ w with
    | Some p =>
        if record_types_ w
        then attachment_to_write (attachment_size c (payload_length p)) 0
        else ret tt
    | None => ret tt
    end ;;
    record_potential_size.

(** [close_current_file_nts_()]. *)
Definition close_current_file_nts_ : W unit :=
  w <- get ;;
  (if record_types_ w
   then match dynamic_types_payload_ w with
        | Some _ => write_attachment_nts_
        | None => ret tt
        end
   else ret tt) ;;
  w <- get ;;
  set_current_file_size (SizeTracker.get_written_mcap_size (size_tracker_ w)) ;;
  emit EvResetTracker ;;
  tracker_do (SizeTracker.reset c) ;;
  emit EvClose ;;
  emit EvCloseFile ;;
  modify (fun w => set_file_tracker (FileTracker.close_file (file_tracker_ w)) w).

(** [on_mcap_full_nts_(e)], [e] carrying [data_size_to_write]. *)
Definition on_mcap_full_nts_ (data_size_to_write : N) : W unit :=
  close_current_file_nts_ ;;
  modify (set_enabled false) ;;
  w <- get ;;
  if max_file_size (configuration_ w) =? max_size (configuration_ w)
  then throw FullDiskException
  else
    open_new_file_nts_
      (add64 (SizeTracker.get_min_mcap_size c (size_tracker_ w))
             data_size_to_write) ;;
    modify (set_enabled true).

(** [on_disk_full_()]. *)
Definition on_disk_full_ : W unit :=
  emit (EvMonitorError "DISK_FULL") ;;
  w <- get ;;
  if on_disk_full_lambda_ w then emit EvDiskFullCallback else ret tt.

(** The handler [catch (const FullDiskException& e)] of [enable] and
    [update_dynamic_types], whose body logs and calls [on_disk_full_()].  It
    catches a [FullFileException] as well when that class is derived from
    [FullDiskException]. *)
Definition catch_full_disk (e : Exn) : option (W unit) :=
  match e with
  | FullDiskException => Some on_disk_full_
  | FullFileException _ =>
      if full_file_is_full_disk c then Some on_disk_full_ else None
  | _ => None
  end.

(** [McapWriter::enable()]. *)
Definition enable : W unit :=
  w <- get ;;
  if enabled_ w then ret tt
  else
    try_catch (open_new_file_nts_ (MIN_MCAP_SIZE c)) catch_full_disk ;;
    modify (set_enabled true).

(** [McapWriter::disable()]. *)
Definition disable : W unit :=
  w <- get ;;
  if negb (enabled_ w) then ret tt
  else
    close_current_file_nts_ ;;
    modify (set_channels []) ;;
    modify (set_enabled false).

(** The lambda [update_dynamic_types_payload] of [update_dynamic_types]. *)
Definition update_dynamic_types_payload (p : SerializedPayload) : W unit :=
  w <- get ;;
  match dynamic_types_payload_ w with
  | None => attachment_to_write (attachment_size c (payload_length p)) 0
  | Some old =>
      attachment_to_write (attachment_size c (payload_length p))
                          (attachment_size c (payload_length old))
  end.

(** [McapWriter::update_dynamic_types(dynamic_types_payload)]. *)
Definition update_dynamic_types (p : SerializedPayload) : W unit :=
  try_catch (update_dynamic_types_payload p)
    (fun e => match e with
              | FullFileException n =>
                  Some (try_catch
                          (on_mcap_full_nts_ n ;; update_dynamic_types_payload p)
                          catch_full_disk)
              | _ => None
              end) ;;
  modify (set_payload (Some p)) ;;
  record_potential_size.

(** [McapWriter::set_on_disk_full_callback(on_disk_full_lambda)]. *)
Definition set_on_disk_full_callback (installed : bool) : W unit :=
  modify (set_lambda installed).

(** Modelled from the spec: the public overloaded [write], a template whose
    body is in the class header, which is not part of the sources at hand.
    "If reservation raises FileFull: close current file, open a new file ...;
    if max_file_size == max_total_size, re-raise as DiskFull; otherwise retry
    reservation on the new file"; "Writer-raised DiskFull invokes the
    on_disk_full callback".  This is the shape of [update_dynamic_types]. *)
Definition write (i : Item) : W unit :=
  try_catch (write_nts_ i)
    (fun e => match e with
              | FullFileException n =>
                  Some (try_catch (on_mcap_full_nts_ n ;; write_nts_ i)
                          catch_full_disk)
              | _ => None
              end).

End Writer.

(** The constructor: [enabled_] starts false, no payload is staged, the maps
    are empty and no callback is installed. *)
Definition McapWriter_new (c : Constants) (configuration : OutputSettings)
  (file_tracker : FileTracker.t) (record_types : bool) : McapWriter :=
  mkWriter configuration file_tracker record_types false (SizeTracker.create c)
    None [] [] false [].

(** * Properties *)

(** ** Frame lemmas: which data members a member function leaves alone *)

(** [keeps f m]: running [m] never changes the observation [f] of the
    writer, whether [m] returns or throws. *)
Definition keeps {A B} (f : McapWriter -> B) (m : W A) : Prop :=
  forall w, f (snd (m w)) = f w.

Section Frame.

Variable c : Constants.
Variable codec_status : list Event -> bool.
Variable B : Type.
Variable f : McapWriter -> B.

Lemma keeps_ret A (a : A) : keeps f (ret a).
Proof. intro w; reflexivity. Qed.

Lemma keeps_throw A e : keeps f (@throw _ A e).
Proof. intro w; reflexivity. Qed.

Lemma keeps_get : keeps f get.
Proof. intro w; reflexivity. Qed.

Lemma keeps_bind A C (m : W A) (k : A -> W C) :
  keeps f m -> (forall a, keeps f (k a)) -> keeps f (bind m k).
Proof.
  intros Hm Hk w. unfold bind. specialize (Hm w).
  destruct (m w) as [[a|e] w1]; cbn in *; [rewrite Hk|]; assumption.
Qed.

Lemma keeps_try_catch A (m : W A) h :
  keeps f m -> (forall e k, h e = Some k -> keeps f k) ->
  keeps f (try_catch m h).
Proof.
  intros Hm Hh w. unfold try_catch. specialize (Hm w).
  destruct (m w) as [[a|e] w1]; cbn in *; [assumption|].
  destruct (h e) as [k|] eqn:E; cbn; [|assumption].
  rewrite (Hh _ _ E). assumption.
Qed.

Lemma keeps_for_each A (body : A -> W unit) l :
  (forall a, keeps f (body a)) -> keeps f (for_each body l).
Proof.
  intro Hb. induction l as [|x l IH]; cbn [for_each].
  - apply keeps_ret.
  - apply keeps_bind; [apply Hb | intros _; exact IH].
Qed.

Lemma keeps_modify (g : McapWriter -> McapWriter) :
  (forall w, f (g w) = f w) -> keeps f (modify g).
Proof. intros H w; apply H. Qed.

End Frame.

(** ** Traversal of a map that the loop body stores into *)

(** Keys strictly increasing, as in a [std::map]. *)
Fixpoint keys_above {V} (lo : N) (m : list (N * V)) : Prop :=
  match m with
  | [] => True
  | (k, _) :: m' => lo < k /\ keys_above k m'
  end.

Definition keys_increasing {V} (m : list (N * V)) : Prop :=
  match m with
  | [] => True
  | (k, _) :: m' => keys_above k m'
  end.



Section Traversal.

Variable V : Type.
Variable m : McapWriter -> list (N * V).
Variable body : N -> V -> W unit.


Definition round (k : N) : W (option N) :=
  bind get (fun s =>
    match map_lower_bound k (m s) with
    | Some (k', v) => bind (body k' v) (fun _ => ret (Some (N.succ k')))
    | None => ret None
    end).

Lemma for_each_in_map_eq :
  for_each_in_map m body = bind (rounds 16 round 0) (fun _ => ret tt).
Proof. reflexivity. Qed.

Lemma keeps_rounds B (f : McapWriter -> B) X (step : X -> W (option X)) n :
  (forall x, keeps f (step x)) -> forall x, keeps f (rounds n step x).
Proof.
  intro Hs. induction n as [|n IH]; intro x; cbn [rounds].
  - apply Hs.
  - apply keeps_bind; [apply IH|]. intros [x'|]; [apply IH | apply keeps_ret].
Qed.

Lemma keeps_for_each_in_map B (f : McapWriter -> B) :
  (forall k v, keeps f (body k v)) -> keeps f (for_each_in_map m body).
Proof.
  intro Hb. rewrite for_each_in_map_eq.
  apply keeps_bind; [|intros; apply keeps_ret].
  apply keeps_rounds. intro k. unfold round.
  apply keeps_bind; [apply keeps_get|]. intro s.
  destruct (map_lower_bound k (m s)) as [[k' v]|]; [|apply keeps_ret].
  apply keeps_bind; [apply Hb | intros; apply keeps_ret].
Qed.











Lemma rounds_empty n : forall x w,
  m w = [] -> rounds n round x w = (Ok None, w).
Proof.
  induction n as [|n IH]; intros x w H; cbn [rounds].
  - unfold round, bind, get. rewrite H. reflexivity.
  - unfold bind. rewrite (IH x w H). reflexivity.
Qed.

Lemma for_each_in_map_empty w :
  m w = [] -> for_each_in_map m body w = (Ok tt, w).
Proof.
  intro H. rewrite for_each_in_map_eq. unfold bind.
  rewrite (@rounds_empty 16 0 w H). reflexivity.
Qed.

(** [P l w]: a licence under which the body, run on the elements [l] from
    [w] on, stores nothing new into the map. *)
Variable P : list (N * V) -> McapWriter -> Prop.

Hypothesis P_step : forall k v l w w1,
  P ((k, v) :: l) w -> body k v w = (Ok tt, w1) -> m w1 = m w /\ P l w1.



End Traversal.

Opaque for_each_in_map.

(** The entries of the log made by [on_disk_full_]. *)
Definition is_disk_full_event (e : Event) : bool :=
  match e with
  | EvMonitorError _ | EvDiskFullCallback => true
  | _ => false
  end.

Definition disk_full_events (l : list Event) : list Event :=
  filter is_disk_full_event l.

(** What the codec, the trackers and the private write routines never touch:
    the enabled flag, the installed callback, the configuration, the staged
    payload and the record of disk-full notifications. *)
Definition obs (w : McapWriter)
  : bool * bool * bool * OutputSettings * option SerializedPayload * list Event :=
  (enabled_ w, on_disk_full_lambda_ w, record_types_ w, configuration_ w,
   dynamic_types_payload_ w, disk_full_events (log w)).

Lemma disk_full_events_app l e :
  is_disk_full_event e = false ->
  disk_full_events (l ++ [e]) = disk_full_events l.
Proof.
  intro H. unfold disk_full_events. rewrite filter_app. cbn. rewrite H.
  apply app_nil_r.
Qed.

Lemma obs_set_enabled b w1 w2 :
  obs w1 = obs w2 -> obs (set_enabled b w1) = obs (set_enabled b w2).
Proof.
  destruct w1, w2. unfold obs; cbn. intros [= -> -> -> -> -> ->]. reflexivity.
Qed.

Section FrameWriter.

Variable c : Constants.
Variable codec_status : list Event -> bool.

Lemma keeps_obs_emit e : is_disk_full_event e = false -> keeps obs (emit e).
Proof.
  intros H w. destruct w. unfold obs; cbn. rewrite (disk_full_events_app _ _ H).
  reflexivity.
Qed.

Lemma keeps_obs_codec call :
  (forall b, is_disk_full_event (call b) = false) ->
  keeps obs (codec codec_status call).
Proof.
  intros H w. destruct w. unfold obs; cbn.
  rewrite (disk_full_events_app _ _ (H _)). reflexivity.
Qed.

Lemma keeps_obs_tracker_call g : keeps obs (tracker_call g).
Proof. intros []; reflexivity. Qed.

Ltac frame_step :=
  first
    [ apply keeps_ret | apply keeps_throw | apply keeps_get
    | apply keeps_obs_emit; reflexivity
    | apply keeps_obs_codec; intro; reflexivity
    | apply keeps_obs_tracker_call
    | apply keeps_modify; intros []; reflexivity
    | apply keeps_for_each_in_map; intros ? ?
    | apply keeps_bind; [| intro]
    | apply keeps_for_each; intro
    | apply keeps_try_catch; [| intros [] ? [=]; subst]
    | match goal with
      | |- keeps _ (if ?b then _ else _) => destruct b
      | |- keeps _ (match ?x with _ => _ end) => destruct x
      end
    | assumption ].

Ltac frame := repeat frame_step.

Lemma keeps_obs_tracker_do g : keeps obs (tracker_do g).
Proof. unfold tracker_do; frame. Qed.

Lemma keeps_obs_set_size n : keeps obs (set_current_file_size n).
Proof. unfold set_current_file_size; frame. Qed.

Lemma keeps_obs_record_potential : keeps obs record_potential_size.
Proof. unfold record_potential_size; frame; apply keeps_obs_set_size. Qed.

Lemma keeps_obs_item_to_write n : keeps obs (item_to_write n).
Proof. unfold item_to_write; frame. Qed.

Lemma keeps_obs_attachment_to_write n r : keeps obs (attachment_to_write n r).
Proof. unfold attachment_to_write; frame. Qed.

Lemma keeps_obs_item_written n : keeps obs (item_written n).
Proof. unfold item_written; frame; apply keeps_obs_tracker_do. Qed.

Lemma keeps_obs_write_nts_schema_at home s :
  keeps obs (write_nts_schema_at c home s).
Proof.
  unfold write_nts_schema_at; frame;
    first [ apply keeps_obs_item_written | apply keeps_obs_record_potential
          | apply keeps_obs_item_to_write ].
Qed.

Lemma keeps_obs_write_nts_channel_at home ch :
  keeps obs (write_nts_channel_at c home ch).
Proof.
  unfold write_nts_channel_at; frame;
    first [ apply keeps_obs_item_written | apply keeps_obs_record_potential
          | apply keeps_obs_item_to_write ].
Qed.

Lemma keeps_obs_write_nts_ i : keeps obs (write_nts_ c codec_status i).
Proof.
  destruct i; cbn [write_nts_];
    [ | apply keeps_obs_write_nts_channel_at | |
      | apply keeps_obs_write_nts_schema_at ];
    unfold write_nts_attachment, write_nts_message, write_nts_metadata;
    frame;
    first [ apply keeps_obs_item_written | apply keeps_obs_record_potential
          | apply keeps_obs_item_to_write ].
Qed.

Lemma keeps_obs_new_file n : keeps obs (new_file n).
Proof. unfold new_file; frame; intros []; reflexivity. Qed.

Lemma keeps_obs_open_new_file n :
  keeps obs (open_new_file_nts_ c codec_status n).
Proof.
  unfold open_new_file_nts_, write_metadata_nts_, write_schemas_nts_,
    write_channels_nts_; frame;
    first [ apply keeps_obs_new_file | apply keeps_obs_tracker_do
          | apply keeps_obs_write_nts_ | apply keeps_obs_record_potential
          | apply keeps_obs_attachment_to_write
          | apply keeps_obs_write_nts_schema_at
          | apply keeps_obs_write_nts_channel_at ].
Qed.

Lemma keeps_obs_close : keeps obs (close_current_file_nts_ c codec_status).
Proof.
  unfold close_current_file_nts_, write_attachment_nts_; frame;
    first [ apply keeps_obs_write_nts_ | apply keeps_obs_set_size
          | apply keeps_obs_tracker_do ].
Qed.

End FrameWriter.

(** The same for any observation [f] of the writer that the trackers do not
    enter and that ignores the log entries [quiet] holds of, the bookkeeping
    of single items among them. *)
Section Untouched.

Variable c : Constants.
Variable codec_status : list Event -> bool.
Variable B : Type.
Variable f : McapWriter -> B.
Variable quiet : Event -> bool.

Hypothesis f_log : forall e w,
  quiet e = true -> f (set_log (log w ++ [e]) w) = f w.
Hypothesis f_size_tracker : forall s w, f (set_size_tracker s w) = f w.
Hypothesis f_file_tracker : forall t w, f (set_file_tracker t w) = f w.
Hypothesis quiet_books : forall n,
  quiet (EvReserve n) = true /\ quiet (EvCommit n) = true /\
  quiet (EvSetFileSize n) = true.

Lemma untouched_emit e : quiet e = true -> keeps f (emit e).
Proof. intros H w. cbn. apply f_log. exact H. Qed.

Lemma untouched_codec call :
  (forall b, quiet (call b) = true) -> keeps f (codec codec_status call).
Proof. intros H w. cbn. apply f_log. apply H. Qed.

Lemma untouched_tracker_call g : keeps f (tracker_call g).
Proof. intro w. cbn. apply f_size_tracker. Qed.

Lemma untouched_tracker_do g : keeps f (tracker_do g).
Proof. intro w. cbn. apply f_size_tracker. Qed.

Lemma untouched_set_current_file_size n : keeps f (set_current_file_size n).
Proof.
  unfold set_current_file_size.
  apply keeps_bind; [apply untouched_emit, quiet_books|intros _].
  intro w. cbn. apply f_file_tracker.
Qed.

Lemma untouched_record_potential : keeps f record_potential_size.
Proof.
  unfold record_potential_size. apply keeps_bind; [apply keeps_get|intro w].
  apply untouched_set_current_file_size.
Qed.

Lemma untouched_item_to_write n : keeps f (item_to_write n).
Proof.
  unfold item_to_write.
  apply keeps_bind; [apply untouched_emit, quiet_books|intros _].
  apply untouched_tracker_call.
Qed.

Lemma untouched_item_written n : keeps f (item_written n).
Proof.
  unfold item_written.
  apply keeps_bind; [apply untouched_emit, quiet_books|intros _].
  apply untouched_tracker_do.
Qed.


Lemma untouched_write_nts_metadata md :
  (forall b, quiet (EvWriteMetadata md b) = true) ->
  keeps f (write_nts_metadata c codec_status md).
Proof.
  intro H. unfold write_nts_metadata.
  apply keeps_bind; [apply untouched_item_to_write|intros _].
  apply keeps_bind; [apply untouched_codec, H|intro ok].
  destruct (negb ok); [apply keeps_ret|].
  apply keeps_bind; [apply untouched_item_written|intros _].
  apply untouched_record_potential.
Qed.

Lemma untouched_write_nts_schema_at home s :
  quiet (EvAddSchema s) = true ->
  (forall m w, f (set_schemas m w) = f w) ->
  keeps f (write_nts_schema_at c home s).
Proof.
  intros H Hs. unfold write_nts_schema_at.
  apply keeps_bind; [apply untouched_item_to_write|intros _].
  apply keeps_bind; [apply keeps_get|intro w0].
  apply keeps_bind; [apply untouched_emit, H|intros _].
  apply keeps_bind;
    [destruct home; [apply keeps_modify; intro; apply Hs | apply keeps_ret]
    |intros _].
  apply keeps_bind; [apply untouched_item_written|intros _].
  apply keeps_bind; [apply untouched_record_potential|intros _].
  apply keeps_modify. intro. apply Hs.
Qed.

Lemma untouched_write_nts_channel_at home ch :
  quiet (EvAddChannel ch) = true ->
  (forall m w, f (set_channels m w) = f w) ->
  keeps f (write_nts_channel_at c home ch).
Proof.
  intros H Hs. unfold write_nts_channel_at.
  apply keeps_bind; [apply untouched_item_to_write|intros _].
  apply keeps_bind; [apply keeps_get|intro w0].
  apply keeps_bind; [apply untouched_emit, H|intros _].
  apply keeps_bind;
    [destruct home; [apply keeps_modify; intro; apply Hs | apply keeps_ret]
    |intros _].
  apply keeps_bind; [apply untouched_item_written|intros _].
  apply keeps_bind; [apply untouched_record_potential|intros _].
  apply keeps_modify. intro. apply Hs.
Qed.

Lemma untouched_write_schemas :
  (forall s, quiet (EvAddSchema s) = true) ->
  (forall m w, f (set_schemas m w) = f w) ->
  keeps f (write_schemas_nts_ c).
Proof.
  intros H Hs. unfold write_schemas_nts_. apply keeps_for_each_in_map.
  intros k s. apply untouched_write_nts_schema_at; [apply H | exact Hs].
Qed.

Lemma untouched_write_channels :
  (forall ch, quiet (EvAddChannel ch) = true) ->
  (forall m w, f (set_channels m w) = f w) ->
  keeps f (write_channels_nts_ c).
Proof.
  intros H Hs. unfold write_channels_nts_. apply keeps_for_each_in_map.
  intros k s. apply untouched_write_nts_channel_at; [apply H | exact Hs].
Qed.

End Untouched.

(** ** Member functions that cannot throw *)

Definition returns {A} (m : W A) : Prop :=
  forall w, exists a, fst (m w) = Ok a.

Section Returns.

Variable c : Constants.
Variable codec_status : list Event -> bool.

Lemma returns_ret A (a : A) : returns (ret a).
Proof. intro w; exists a; reflexivity. Qed.

Lemma returns_bind A C (m : W A) (k : A -> W C) :
  returns m -> (forall a, returns (k a)) -> returns (bind m k).
Proof.
  intros Hm Hk w. unfold bind. destruct (Hm w) as [a Ha].
  destruct (m w) as [[a'|e] w1]; cbn in Ha; [|discriminate].
  apply Hk.
Qed.

Lemma returns_modify g : returns (modify g).
Proof. intro w; exists tt; reflexivity. Qed.

Lemma returns_get : returns (@get McapWriter).
Proof. intro w; exists w; reflexivity. Qed.

Lemma returns_codec call : returns (codec codec_status call).
Proof. intro w; eexists; reflexivity. Qed.

Ltac total_step :=
  first
    [ apply returns_ret | apply returns_get | apply returns_modify
    | apply returns_codec
    | apply returns_bind; [| intro]
    | match goal with
      | |- returns (if ?b then _ else _) => destruct b
      | |- returns (match ?x with _ => _ end) => destruct x
      end ].

Lemma returns_write_nts_attachment a :
  returns (write_nts_attachment c codec_status a).
Proof.
  unfold write_nts_attachment, item_written, record_potential_size,
    set_current_file_size, emit, tracker_do.
  repeat total_step.
Qed.

Lemma returns_close : returns (close_current_file_nts_ c codec_status).
Proof.
  unfold close_current_file_nts_, write_attachment_nts_.
  cbn [write_nts_].
  unfold set_current_file_size, emit, tracker_do.
  repeat first [apply returns_write_nts_attachment | total_step].
Qed.

Lemma returns_on_disk_full : returns on_disk_full_.
Proof. unfold on_disk_full_, emit. repeat total_step. Qed.

(** [on_mcap_full_nts_] unfolded along its control flow. *)
Lemma on_mcap_full_nts_eq n w :
  on_mcap_full_nts_ c codec_status n w =
  let wd := set_enabled false (snd (close_current_file_nts_ c codec_status w)) in
  if max_file_size (configuration_ wd) =? max_size (configuration_ wd)
  then (Raise FullDiskException, wd)
  else match open_new_file_nts_ c codec_status
               (add64 (SizeTracker.get_min_mcap_size c (size_tracker_ wd)) n) wd
       with
       | (Ok _, wo) => (Ok tt, set_enabled true wo)
       | (Raise e, wo) => (Raise e, wo)
       end.
Proof.
  unfold on_mcap_full_nts_ at 1. unfold bind at 1.
  destruct (returns_close w) as [[] Hc].
  destruct (close_current_file_nts_ c codec_status w) as [r wc].
  cbn in Hc; subst r. cbn.
  unfold bind, modify, get, throw. cbn.
  destruct (_ =? _); [reflexivity|].
  destruct (open_new_file_nts_ _ _ _ _) as [[[]|e] wo]; reflexivity.
Qed.

(** A failed rollover leaves the writer disabled and everything else in
    [obs] as it was. *)
Lemma on_mcap_full_nts_raise n w e w' :
  on_mcap_full_nts_ c codec_status n w = (Raise e, w') ->
  obs w' = obs (set_enabled false w).
Proof.
  rewrite on_mcap_full_nts_eq. cbv zeta.
  pose proof (keeps_obs_close c codec_status w) as Hc.
  set (wc := snd (close_current_file_nts_ c codec_status w)) in *.
  assert (Hd : obs (set_enabled false wc) = obs (set_enabled false w)).
  { apply obs_set_enabled. exact Hc. }
  destruct (_ =? _).
  - intros [= <- <-]. exact Hd.
  - pose proof (keeps_obs_open_new_file c codec_status
       (add64 (SizeTracker.get_min_mcap_size c
                 (size_tracker_ (set_enabled false wc))) n)
       (set_enabled false wc)) as Ho.
    destruct (open_new_file_nts_ _ _ _ _) as [[[]|e'] wo]; [discriminate|].
    intros [= <- <-]. cbn in Ho. congruence.
Qed.

End Returns.

(** ** Disk full *)

(** What one run of [on_disk_full_] adds to the log: the monitor error and,
    when a callback is installed, its single invocation. *)
Definition disk_full_notice (w : McapWriter) : list Event :=
  EvMonitorError "DISK_FULL" ::
  (if on_disk_full_lambda_ w then [EvDiskFullCallback] else []).

Section DiskFull.

Variable c : Constants.
Variable codec_status : list Event -> bool.

Lemma on_disk_full_eq w :
  on_disk_full_ w = (Ok tt, set_log (log w ++ disk_full_notice w) w).
Proof.
  unfold on_disk_full_, disk_full_notice, emit, bind, modify, get, ret.
  destruct w as [cfg ft rt en st pl sc ch lam lg]; cbn.
  destruct lam; cbn; [rewrite <- app_assoc|]; reflexivity.
Qed.

Lemma disk_full_events_notice l w :
  disk_full_events (l ++ disk_full_notice w) =
  disk_full_events l ++ disk_full_notice w.
Proof.
  unfold disk_full_events, disk_full_notice. rewrite filter_app.
  destruct (on_disk_full_lambda_ w); reflexivity.
Qed.

(** The handler shared by [update_dynamic_types] and [write]: a FileFull
    from [attempt] whose rollover ends in DiskFull runs [on_disk_full_] once
    and returns. *)
Lemma rollover_disk_full (attempt : W unit) w n w1 w2 :
  attempt w = (Raise (FullFileException n), w1) ->
  on_mcap_full_nts_ c codec_status n w1 = (Raise FullDiskException, w2) ->
  try_catch attempt
    (fun e => match e with
              | FullFileException n =>
                  Some (try_catch
                          (bind (on_mcap_full_nts_ c codec_status n)
                                (fun _ => attempt))
                          (catch_full_disk c))
              | _ => None
              end) w
  = (Ok tt, set_log (log w2 ++ disk_full_notice w2) w2).
Proof.
  intros H1 H2. unfold try_catch at 1. rewrite H1.
  unfold try_catch, bind. rewrite H2. cbn. apply on_disk_full_eq.
Qed.

Lemma write_message_disabled m w :
  enabled_ w = false ->
  write_nts_ c codec_status (IMessage m) w = (Ok tt, w) /\
  write c codec_status (IMessage m) w = (Ok tt, w).
Proof.
  intro H.
  assert (E : write_nts_ c codec_status (IMessage m) w = (Ok tt, w)).
  { cbn [write_nts_]. unfold write_nts_message, bind, get. rewrite H.
    reflexivity. }
  split; [exact E|]. unfold write, try_catch. rewrite E. reflexivity.
Qed.

Lemma obs_after_failed_rollover (attempt : W unit) w n w1 w2 :
  keeps obs attempt ->
  attempt w = (Raise (FullFileException n), w1) ->
  on_mcap_full_nts_ c codec_status n w1 = (Raise FullDiskException, w2) ->
  enabled_ w2 = false /\
  on_disk_full_lambda_ w2 = on_disk_full_lambda_ w /\
  disk_full_events (log w2) = disk_full_events (log w).
Proof.
  intros K H1 H2. specialize (K w). rewrite H1 in K. cbn in K.
  apply on_mcap_full_nts_raise in H2.
  unfold obs in *. destruct w, w1, w2; cbn in *.
  injection H2 as -> -> -> -> -> ->. injection K as -> -> -> -> -> ->.
  repeat split.
Qed.

(** C1 (as amended).  When a reservation overflow cannot be answered by a
    new file, that is, when the rollover of [on_mcap_full_nts_] ends in
    DiskFull (one configured file that equals the disk budget, or a
    file tracker that has no room left), then [write] and
    [update_dynamic_types] return normally with the writer disabled, the log
    has gained exactly one disk-full notice (one monitor error and one
    invocation of the installed callback), and from then on every write of a
    Message returns at once with the writer unchanged, log included. *)
Theorem disk_full_disables_writer_and_mutes_messages :
  (forall i w n w1 w2,
     write_nts_ c codec_status i w = (Raise (FullFileException n), w1) ->
     on_mcap_full_nts_ c codec_status n w1 = (Raise FullDiskException, w2) ->
     exists w',
       write c codec_status i w = (Ok tt, w') /\
       enabled_ w' = false /\
       disk_full_events (log w') = disk_full_events (log w) ++ disk_full_notice w /\
       forall m, write c codec_status (IMessage m) w' = (Ok tt, w')) /\
  (forall p w n w1 w2,
     update_dynamic_types_payload c p w = (Raise (FullFileException n), w1) ->
     on_mcap_full_nts_ c codec_status n w1 = (Raise FullDiskException, w2) ->
     exists w',
       update_dynamic_types c codec_status p w = (Ok tt, w') /\
       enabled_ w' = false /\
       disk_full_events (log w') = disk_full_events (log w) ++ disk_full_notice w /\
       forall m, write c codec_status (IMessage m) w' = (Ok tt, w')).
Proof.
  split.
  - intros i w n w1 w2 H1 H2.
    destruct (@obs_after_failed_rollover _ w n w1 w2
                (keeps_obs_write_nts_ c codec_status i) H1 H2) as (He & Hl & Hd).
    exists (set_log (log w2 ++ disk_full_notice w2) w2).
    split; [exact (@rollover_disk_full _ w n w1 w2 H1 H2)|].
    split; [exact He|].
    split.
    + change (log (set_log (log w2 ++ disk_full_notice w2) w2))
        with (log w2 ++ disk_full_notice w2).
      rewrite disk_full_events_notice, Hd.
      unfold disk_full_notice. rewrite Hl. reflexivity.
    + intro m. apply write_message_disabled. exact He.
  - intros p w n w1 w2 H1 H2.
    assert (K : keeps obs (update_dynamic_types_payload c p)).
    { unfold update_dynamic_types_payload. apply keeps_bind; [apply keeps_get|].
      intro a. destruct (dynamic_types_payload_ a);
        apply keeps_obs_attachment_to_write. }
    destruct (@obs_after_failed_rollover _ w n w1 w2 K H1 H2) as (He & Hl & Hd).
    pose proof (@rollover_disk_full _ w n w1 w2 H1 H2) as R.
    unfold update_dynamic_types. unfold bind at 1. rewrite R.
    unfold bind at 1. cbn [modify].
    set (w3 := set_payload (Some p) (set_log (log w2 ++ disk_full_notice w2) w2)).
    pose proof (keeps_obs_record_potential w3) as K3.
    destruct (record_potential_size w3) as [r w4] eqn:E4.
    assert (r = Ok tt) as ->.
    { unfold record_potential_size, set_current_file_size, emit, bind, get,
        modify in E4. cbn in E4. congruence. }
    exists w4. split; [reflexivity|]. cbn in K3.
    unfold obs in K3. injection K3 as K3e _ _ _ _ K3d.
    change (enabled_ w3) with (enabled_ w2) in K3e.
    change (log w3) with (log w2 ++ disk_full_notice w2) in K3d.
    assert (He4 : enabled_ w4 = false) by congruence.
    split; [exact He4|]. split.
    + rewrite K3d, disk_full_events_notice, Hd.
      unfold disk_full_notice. rewrite Hl. reflexivity.
    + intro m. apply write_message_disabled. exact He4.
Qed.

End DiskFull.

(** ** A concrete configuration *)

(** A build whose records cost their payload, with a 10-byte file overhead
    and a 10-byte version record, in which [FullFileException] is not a
    [FullDiskException]; a codec that leaves a record the id it comes with
    and never fails. *)
Definition c0 : Constants :=
  mkConstants 20 10 (fun n => n) (fun n => n) (fun _ => 10) (fun _ _ _ => 5)
    (fun _ _ => 3) "1.0" "abc" false
    (fun _ s => schema_id s) (fun _ ch => channel_id ch).

Definition codec_ok (h : list Event) : bool := true.

Definition run (m : W unit) (w : McapWriter) : McapWriter := snd (m w).

Definition msg (n : N) : McapMessage := mkMessage 0 1 0 n.

Definition schema1 : Schema := mkSchema 1 "T" "idl" [].

Definition channel1 : Channel := mkChannel 1 "topic" 1.

Definition types (n : N) : SerializedPayload := mkPayload [] n.

(** One file that is the whole disk budget, holding a 70-byte message. *)
Definition one_file : McapWriter :=
  run (write c0 codec_ok (IMessage (msg 70)))
    (run (enable c0 codec_ok)
       (run (set_on_disk_full_callback true)
          (McapWriter_new c0 (mkSettings 100 100 0) FileTracker.create true))).

(** The same writer after a second 70-byte message met DiskFull. *)
Definition one_file_full : McapWriter :=
  run (write c0 codec_ok (IMessage (msg 70))) one_file.

Lemma disk_full_disables_writer_and_mutes_messages_witness :
  (exists w',
     write c0 codec_ok (IMessage (msg 70)) one_file = (Ok tt, w') /\
     enabled_ w' = false /\
     disk_full_events (log w') =
       disk_full_events (log one_file) ++ disk_full_notice one_file /\
     forall m, write c0 codec_ok (IMessage m) w' = (Ok tt, w')) /\
  (exists w',
     update_dynamic_types c0 codec_ok (types 50) one_file = (Ok tt, w') /\
     enabled_ w' = false /\
     disk_full_events (log w') =
       disk_full_events (log one_file) ++ disk_full_notice one_file /\
     forall m, write c0 codec_ok (IMessage m) w' = (Ok tt, w')).
Proof.
  split.
  - eapply (proj1 (disk_full_disables_writer_and_mutes_messages c0 codec_ok)).
    + vm_compute. reflexivity.
    + vm_compute. reflexivity.
  - eapply (proj2 (disk_full_disables_writer_and_mutes_messages c0 codec_ok)).
    + vm_compute. reflexivity.
    + vm_compute. reflexivity.
Defined.

(** [one_file] after a 50-byte payload met DiskFull in
    [update_dynamic_types]. *)
Definition one_file_types_full : McapWriter :=
  run (update_dynamic_types c0 codec_ok (types 50)) one_file.

(** C1 (as stated) fails: after DiskFull has disabled the writer and the
    notice was given once, the write of a Schema is not a no-op; it is
    accounted, handed to the codec and cached.  This holds after a DiskFull
    met in [write] as well as after one met in [update_dynamic_types]. *)
Lemma schema_write_after_disk_full_is_not_a_noop :
  (enabled_ one_file_full = false /\
   disk_full_events (log one_file_full) =
     [EvMonitorError "DISK_FULL"; EvDiskFullCallback] /\
   write c0 codec_ok (ISchema schema1) one_file_full <> (Ok tt, one_file_full) /\
   schemas_ one_file_full = [] /\
   schemas_ (run (write c0 codec_ok (ISchema schema1)) one_file_full) =
     [(1, schema1)]) /\
  (enabled_ one_file_types_full = false /\
   disk_full_events (log one_file_types_full) =
     [EvMonitorError "DISK_FULL"; EvDiskFullCallback] /\
   write_nts_ c0 codec_ok (ISchema schema1) one_file_types_full <>
     (Ok tt, one_file_types_full) /\
   schemas_ one_file_types_full = [] /\
   schemas_ (run (write_nts_ c0 codec_ok (ISchema schema1)) one_file_types_full) =
     [(1, schema1)]).
Proof.
  split.
  - split; [vm_compute; reflexivity|]. split; [vm_compute; reflexivity|]. split.
    + intro H. apply (f_equal (fun r => schemas_ (snd r))) in H.
      vm_compute in H. discriminate H.
    + split; vm_compute; reflexivity.
  - split; [vm_compute; reflexivity|]. split; [vm_compute; reflexivity|]. split.
    + intro H. apply (f_equal (fun r => schemas_ (snd r))) in H.
      vm_compute in H. discriminate H.
    + split; vm_compute; reflexivity.
Qed.

(** [enable()] on the full disk: the file tracker refuses the new file, the
    notice is given, and the writer ends up enabled with no file open,
    unlike after the same refusal met in [on_mcap_full_nts_]. *)
Lemma enable_on_full_disk_leaves_writer_enabled :
  enable c0 codec_ok one_file_full =
    (Ok tt, run (enable c0 codec_ok) one_file_full) /\
  enabled_ (run (enable c0 codec_ok) one_file_full) = true /\
  FileTracker.current_file (file_tracker_ (run (enable c0 codec_ok) one_file_full))
    = None /\
  disk_full_events (log (run (enable c0 codec_ok) one_file_full)) =
    disk_full_events (log one_file_full) ++
    [EvMonitorError "DISK_FULL"; EvDiskFullCallback].
Proof.
  split; [vm_compute; reflexivity|]. split; [vm_compute; reflexivity|].
  split; vm_compute; reflexivity.
Qed.

(** ** The landmarks of the log *)

(** The entries that say which file is open and what was put into it:
    tracker bookkeeping of single items ([EvReserve], [EvCommit],
    [EvSetFileSize], [EvResetTracker], [EvCloseFile]) and the disk-full
    notices are left out. *)
Definition is_landmark (e : Event) : bool :=
  match e with
  | EvNewFile _ | EvOpen _ _ | EvInit _ _ | EvReserveAttachment _ _
  | EvAddSchema _ | EvAddChannel _ | EvWriteMessage _ _ | EvWriteMetadata _ _
  | EvWriteAttachment _ _ | EvClose => true
  | _ => false
  end.

Definition landmarks (l : list Event) : list Event := filter is_landmark l.



(** The cached records, which the rollover re-emits. *)
Definition caches (w : McapWriter) : list (N * Schema) * list (N * Channel) :=
  (schemas_ w, channels_ w).

(** What a step did, as far as the rollover protocol is concerned: the
    landmarks it logged. *)
Definition step_adds (w w' : McapWriter) (d : list Event) : Prop :=
  landmarks (log w') = landmarks (log w) ++ d.




(** What a step did to the size tracker: [dp] more bytes are reserved or
    written, [dw] more bytes are written, and the limits and the pending
    attachment are as they were. *)
Definition tracker_adds (w w' : McapWriter) (dp dw : N) : Prop :=
  size_tracker_ w' =
  SizeTracker.mk (SizeTracker.ceiling (size_tracker_ w))
    (SizeTracker.margin (size_tracker_ w))
    (SizeTracker.potential (size_tracker_ w) + dp)
    (SizeTracker.written (size_tracker_ w) + dw)
    (SizeTracker.pending_attachment (size_tracker_ w)).



(** ** The caches of schemas and channels *)

(** Every schema is cached under its own id, every channel under its own. *)
Definition cache_ok (w : McapWriter) : Prop :=
  keys_increasing (schemas_ w) /\ keys_increasing (channels_ w) /\
  Forall (fun kv => fst kv = schema_id (snd kv)) (schemas_ w) /\
  Forall (fun kv => fst kv = channel_id (snd kv)) (channels_ w).

Section MapAssign.

Variable V : Type.

Lemma map_find_assign_same k (v : V) m :
  map_find k (map_assign k v m) = Some v.
Proof.
  induction m as [|[k' v'] m IH]; cbn.
  - rewrite N.eqb_refl. reflexivity.
  - destruct (N.ltb_spec k k'); cbn.
    + rewrite N.eqb_refl. reflexivity.
    + destruct (N.eqb_spec k k'); cbn.
      * rewrite N.eqb_refl. reflexivity.
      * destruct (N.eqb_spec k k'); [contradiction | exact IH].
Qed.

Lemma map_find_assign_other k j (v : V) m :
  j <> k -> map_find j (map_assign k v m) = map_find j m.
Proof.
  intro Hj. induction m as [|[k' v'] m IH]; cbn.
  - destruct (N.eqb_spec j k); [contradiction | reflexivity].
  - destruct (N.ltb_spec k k'); cbn.
    + destruct (N.eqb_spec j k); [contradiction | reflexivity].
    + destruct (N.eqb_spec k k'); cbn.
      * subst k'. destruct (N.eqb_spec j k); [contradiction | reflexivity].
      * rewrite IH. reflexivity.
Qed.

Lemma keys_above_weaken lo lo' (m : list (N * V)) :
  lo' <= lo -> keys_above lo m -> keys_above lo' m.
Proof. destruct m as [|[k v] m]; cbn; [auto|]. intros H [H1 H2]. split; [lia|auto]. Qed.

Lemma keys_above_assign lo k (v : V) m :
  lo < k -> keys_above lo m -> keys_above lo (map_assign k v m).
Proof.
  revert lo. induction m as [|[k' v'] m IH]; cbn; intros lo Hk H.
  - auto.
  - destruct H as [H1 H2].
    destruct (N.ltb_spec k k'); cbn; [auto|].
    destruct (N.eqb_spec k k'); cbn.
    + subst k'. auto.
    + split; [exact H1|]. apply IH; [lia | exact H2].
Qed.

Lemma keys_increasing_assign k (v : V) m :
  keys_increasing m -> keys_increasing (map_assign k v m).
Proof.
  destruct m as [|[k' v'] m]; cbn; [auto|]. intro H.
  destruct (N.ltb_spec k k'); cbn; [auto|].
  destruct (N.eqb_spec k k'); cbn.
  - subst k'. exact H.
  - apply keys_above_assign; [lia | exact H].
Qed.

Lemma keys_above_in lo (m : list (N * V)) kv :
  keys_above lo m -> In kv m -> lo < fst kv.
Proof.
  revert lo. induction m as [|[k' v'] m IH]; cbn; intros lo H Hin; [contradiction|].
  destruct H as [H1 H2]. destruct Hin as [<-|Hin]; [exact H1|].
  specialize (IH _ H2 Hin). lia.
Qed.

(** Assigning an entry the map already holds changes nothing. *)
Lemma map_assign_present k (v : V) m :
  keys_increasing m -> In (k, v) m -> map_assign k v m = m.
Proof.
  induction m as [|[k' v'] m IH]; cbn; intros H Hin; [contradiction|].
  destruct Hin as [E|Hin].
  - injection E as -> ->. rewrite N.ltb_irrefl, N.eqb_refl. reflexivity.
  - pose proof (@keys_above_in k' m (k, v) H Hin) as Hlt. cbn in Hlt.
    destruct (N.ltb_spec k k'); [lia|].
    destruct (N.eqb_spec k k'); [lia|].
    f_equal. apply IH; [|exact Hin].
    destruct m as [|[k2 v2] m]; cbn in *; [auto | tauto].
Qed.

Lemma map_assign_forall (P : N * V -> Prop) k v m :
  P (k, v) -> Forall P m -> Forall P (map_assign k v m).
Proof.
  intros Hp H. induction H as [|[k' v'] m Hx Hm IH]; cbn.
  - constructor; [exact Hp | constructor].
  - destruct (k <? k'); [constructor; [exact Hp | constructor; assumption]|].
    destruct (k =? k'); constructor; assumption.
Qed.

End MapAssign.







Section Steps.

Variable c : Constants.
Variable codec_status : list Event -> bool.

Ltac run_steps :=
  unfold item_to_write, item_written, attachment_to_write,
    record_potential_size, set_current_file_size, emit, tracker_call,
    tracker_do, codec, bind, modify, get, ret, throw,
    SizeTracker.to_write, SizeTracker.attachment_to_write;
  cbn.

Ltac close_step :=
  unfold step_adds, caches, landmarks; cbn;
  rewrite ?filter_app; cbn; rewrite ?app_nil_r, <- ?app_assoc; cbn;
  auto.

(** The id the codec writes depends on the calls it has seen, and a
    reservation is not one of them. *)
Lemma added_schema_reserve w n s :
  added_schema c (set_size_tracker n (set_log (log w ++ [EvReserve (schema_size c s)]) w)) s
  = added_schema c w s.
Proof.
  unfold added_schema, codec_calls. cbn. rewrite filter_app. cbn.
  rewrite app_nil_r. reflexivity.
Qed.

Lemma added_channel_reserve w n ch :
  added_channel c (set_size_tracker n (set_log (log w ++ [EvReserve (channel_size c ch)]) w)) ch
  = added_channel c w ch.
Proof.
  unfold added_channel, codec_calls. cbn. rewrite filter_app. cbn.
  rewrite app_nil_r. reflexivity.
Qed.

Lemma write_nts_schema_at_ok home s w w' :
  write_nts_schema_at c home s w = (Ok tt, w') ->
  step_adds w w' [EvAddSchema s] /\
  tracker_adds w w' (schema_size c s) (schema_size c s) /\
  channels_ w' = channels_ w /\
  schemas_ w' =
    map_assign (schema_id (added_schema c w s)) (added_schema c w s)
      match home with
      | Some k => map_assign k (added_schema c w s) (schemas_ w)
      | None => schemas_ w
      end.
Proof.
  unfold write_nts_schema_at. unfold bind at 1.
  unfold item_to_write, emit, tracker_call, bind at 1, modify.
  cbn [fst snd size_tracker_ set_log].
  unfold SizeTracker.to_write.
  destruct (_ <? _); cbn [fst snd]; [discriminate|].
  unfold bind at 1. cbn [get]. rewrite added_schema_reserve.
  set (s' := added_schema c w s).
  assert (Es : schema_size c s' = schema_size c s) by reflexivity.
  clearbody s'.
  destruct w as [cfg ft rt en st pl sc ch lam lg].
  destruct home; run_steps; intros [= <-]; cbn;
    unfold tracker_adds, SizeTracker.item_written; cbn; rewrite ?Es;
    (split; [close_step|]); repeat split.
Qed.

Lemma write_nts_channel_at_ok home ch w w' :
  write_nts_channel_at c home ch w = (Ok tt, w') ->
  step_adds w w' [EvAddChannel ch] /\
  tracker_adds w w' (channel_size c ch) (channel_size c ch) /\
  schemas_ w' = schemas_ w /\
  channels_ w' =
    map_assign (channel_id (added_channel c w ch)) (added_channel c w ch)
      match home with
      | Some k => map_assign k (added_channel c w ch) (channels_ w)
      | None => channels_ w
      end.
Proof.
  unfold write_nts_channel_at. unfold bind at 1.
  unfold item_to_write, emit, tracker_call, bind at 1, modify.
  cbn [fst snd size_tracker_ set_log].
  unfold SizeTracker.to_write.
  destruct (_ <? _); cbn [fst snd]; [discriminate|].
  unfold bind at 1. cbn [get]. rewrite added_channel_reserve.
  set (ch' := added_channel c w ch).
  assert (Es : channel_size c ch' = channel_size c ch) by reflexivity.
  clearbody ch'.
  destruct w as [cfg ft rt en st pl sc chs lam lg].
  destruct home; run_steps; intros [= <-]; cbn;
    unfold tracker_adds, SizeTracker.item_written; cbn; rewrite ?Es;
    (split; [close_step|]); repeat split.
Qed.



Lemma write_nts_attachment_ok a w :
  exists w', write_nts_attachment c codec_status a w = (Ok tt, w') /\
  step_adds w w' [EvWriteAttachment a (codec_status (log w))] /\
  caches w' = caches w.
Proof.
  unfold write_nts_attachment. run_steps. destruct w; cbn.
  destruct (codec_status _); cbn; eexists; (split; [reflexivity|]); close_step.
Qed.



Lemma record_potential_size_ok w :
  exists w', record_potential_size w = (Ok tt, w') /\
  step_adds w w' [] /\ caches w' = caches w.
Proof.
  run_steps. destruct w; cbn. eexists; split; [reflexivity|]. close_step.
Qed.


End Steps.

(** ** Rollover *)

(** The attachment [close_current_file_nts_] stages into the file it
    closes: the payload in hand, when types are recorded. *)
Definition staged_attachment (w : McapWriter) : option Attachment :=
  if record_types_ w
  then match dynamic_types_payload_ w with
       | Some p => Some (mkAttachment DYNAMIC_TYPES_ATTACHMENT_NAME
                           (payload_data p) (payload_length p))
       | None => None
       end
  else None.

(** The reservation [open_new_file_nts_] makes for it on the new file, and
    its size. *)
Definition attachment_reservation (c : Constants) (w : McapWriter)
  : list Event :=
  match staged_attachment w with
  | Some a => [EvReserveAttachment (attachment_size c (attachment_dataSize a)) 0]
  | None => []
  end.






Section Rollover.

Variable c : Constants.
Variable codec_status : list Event -> bool.

Definition closing_landmarks (w : McapWriter) : list Event :=
  match staged_attachment w with
  | Some a => [EvWriteAttachment a (codec_status (log w))]
  | None => []
  end ++ [EvClose].













(** Closing never throws; it stages the attachment, then closes the codec. *)
Lemma close_current_file_nts_ok w :
  exists wc, close_current_file_nts_ c codec_status w = (Ok tt, wc) /\
  step_adds w wc (closing_landmarks w) /\ caches wc = caches w.
Proof.
  unfold close_current_file_nts_, closing_landmarks, staged_attachment,
    write_attachment_nts_.
  unfold bind at 1. cbn [get].
  destruct (record_types_ w) eqn:Er;
    [destruct (dynamic_types_payload_ w) as [p|] eqn:Ep|].
  - unfold bind at 1. unfold bind at 1. cbn [get]. rewrite Ep.
    cbn [write_nts_].
    destruct (write_nts_attachment_ok c codec_status
                (mkAttachment DYNAMIC_TYPES_ATTACHMENT_NAME (payload_data p)
                   (payload_length p)) w) as (w1 & E & S1 & C1).
    rewrite E. clear E.
    unfold set_current_file_size, emit, tracker_do, bind, modify, get.
    cbn. eexists; split; [reflexivity|].
    unfold step_adds, caches, landmarks in *. destruct w1; cbn in *.
    rewrite !filter_app; cbn. rewrite app_nil_r, S1, <- !app_assoc.
    split; [reflexivity | exact C1].
  - unfold set_current_file_size, emit, tracker_do, bind, modify, get, ret.
    cbn. eexists; split; [reflexivity|].
    unfold step_adds, caches, landmarks. destruct w; cbn.
    rewrite !filter_app; cbn. rewrite ?app_nil_r. split; reflexivity.
  - unfold set_current_file_size, emit, tracker_do, bind, modify, get, ret.
    cbn. eexists; split; [reflexivity|].
    unfold step_adds, caches, landmarks. destruct w; cbn.
    rewrite !filter_app; cbn. rewrite ?app_nil_r. split; reflexivity.
Qed.


End Rollover.

Section OpenNewFile.

Variable c : Constants.
Variable codec_status : list Event -> bool.

Local Open Scope writer_scope.

Lemma sum_sizes_app l f :
  FileTracker.sum_sizes (l ++ [f]) = FileTracker.sum_sizes l + snd f.
Proof.
  unfold FileTracker.sum_sizes. induction l as [|x l IH]; cbn in *; [lia|].
  rewrite IH. lia.
Qed.

(** What a granted [new_file] guarantees (file tracker as in the spec). *)
Lemma file_tracker_new_file_ok cfg m ft ft' :
  FileTracker.new_file cfg m ft = (Ok tt, ft') ->
  m <= max_file_size cfg /\
  FileTracker.get_total_size ft + m <= max_size cfg /\
  FileTracker.get_total_size ft' = FileTracker.get_total_size ft /\
  FileTracker.get_current_filename ft' = FileTracker.next_name ft.
Proof.
  unfold FileTracker.new_file.
  destruct (N.ltb_spec (max_file_size cfg) m); [discriminate|].
  destruct (N.ltb_spec (max_size cfg) (FileTracker.get_total_size ft + m));
    [discriminate|].
  intros [= <-]. repeat split; try assumption; try reflexivity.
  unfold FileTracker.get_total_size, FileTracker.retire; cbn.
  destruct (FileTracker.current_file ft) as [f|];
    [rewrite sum_sizes_app; apply N.add_0_r | reflexivity].
Qed.

Lemma sub64_exact a b : b <= a -> a < two64 -> sub64 a b = a - b.
Proof.
  intros H1 H2. unfold sub64, wrap64.
  rewrite (N.mod_small b) by (unfold two64 in *; lia).
  replace (a + two64 - b) with ((a - b) + 1 * two64) by lia.
  rewrite N.Div0.mod_add. apply N.mod_small. lia.
Qed.

(** The first statement of [open_new_file_nts_]. *)
Lemma new_file_ok m w w1 :
  try_catch (new_file m)
    (fun e => match e with
              | InvalidArgument => Some (throw FullDiskException)
              | _ => None
              end) w = (Ok tt, w1) ->
  exists ft1,
    FileTracker.new_file (configuration_ w) m (file_tracker_ w) = (Ok tt, ft1) /\
    w1 = set_file_tracker ft1 (set_log (log w ++ [EvNewFile m]) w).
Proof.
  unfold try_catch, new_file, emit, bind, modify. cbn.
  destruct (FileTracker.new_file (configuration_ w) m (file_tracker_ w))
    as [[[]|e] ft1] eqn:E; cbn.
  - intros [= <-]. exists ft1. split; reflexivity.
  - destruct e; cbn; discriminate.
Qed.

(** The end of [open_new_file_nts_]: the reservation for the staged
    attachment, and the potential size told to the file tracker. *)
Definition reserve_staged_attachment : W unit :=
  w <- get ;;
  match dynamic_types_payload_ w with
  | Some p =>
      if record_types_ w
      then attachment_to_write (attachment_size c (payload_length p)) 0
      else ret tt
  | None => ret tt
  end ;;
  record_potential_size.

(** What [open_new_file_nts_] puts on the file once the tracker is set up. *)
Definition file_preamble : W unit :=
  write_metadata_nts_ c codec_status ;;
  write_schemas_nts_ c ;;
  write_channels_nts_ c ;;
  reserve_staged_attachment.



End OpenNewFile.

Section OpenNewFileProtocol.

Variable c : Constants.
Variable codec_status : list Event -> bool.

(** The writer right after a granted [new_file], a successful codec [open]
    and [size_tracker_.init]. *)
Definition opened (m : N) (ft1 : FileTracker.t) (w : McapWriter) : McapWriter :=
  let w1 := set_file_tracker ft1 (set_log (log w ++ [EvNewFile m]) w) in
  let w2 := set_log (log w1 ++ [EvOpen (FileTracker.get_current_filename ft1) true]) w1 in
  set_size_tracker
    (SizeTracker.init c (new_file_ceiling w2) (safety_margin (configuration_ w2))
       (size_tracker_ w2))
    (set_log (log w2 ++ [EvInit (new_file_ceiling w2)
                           (safety_margin (configuration_ w2))]) w2).

(** [open_new_file_nts_] unfolded along its control flow. *)
Lemma open_new_file_nts_eq m w :
  open_new_file_nts_ c codec_status m w =
  match FileTracker.new_file (configuration_ w) m (file_tracker_ w) with
  | (Ok _, ft1) =>
      if codec_status (log w ++ [EvNewFile m])
      then file_preamble c codec_status (opened m ft1 w)
      else (Raise InitializationException,
            set_log ((log w ++ [EvNewFile m]) ++
                     [EvOpen (FileTracker.get_current_filename ft1) false])
              (set_file_tracker ft1 (set_log (log w ++ [EvNewFile m]) w)))
  | (Raise e, ft1) =>
      (Raise match e with InvalidArgument => FullDiskException | _ => e end,
       set_file_tracker ft1 (set_log (log w ++ [EvNewFile m]) w))
  end.
Proof.
  unfold open_new_file_nts_. unfold bind at 1.
  unfold try_catch, new_file, emit. unfold bind at 1. cbn [modify].
  cbn [configuration_ file_tracker_ set_log].
  destruct (FileTracker.new_file (configuration_ w) m (file_tracker_ w))
    as [[[]|e] ft1]; cbn [fst snd].
  - unfold bind at 1. cbn [get]. unfold bind at 1. unfold codec at 1.
    cbn [log set_file_tracker set_log].
    destruct (codec_status (log w ++ [EvNewFile m])); cbn [negb].
    + reflexivity.
    + reflexivity.
  - destruct e; reflexivity.
Qed.

Lemma opened_frame m ft1 w :
  caches (opened m ft1 w) = caches w /\ obs (opened m ft1 w) = obs w /\
  step_adds w (opened m ft1 w)
    [EvNewFile m; EvOpen (FileTracker.get_current_filename ft1) true;
     EvInit (new_file_ceiling (opened m ft1 w))
            (safety_margin (configuration_ w))].
Proof.
  destruct w. unfold opened, caches, obs, step_adds, landmarks, new_file_ceiling.
  cbn. unfold disk_full_events. rewrite !filter_app. cbn.
  rewrite !app_nil_r, <- !app_assoc. repeat split.
Qed.


Lemma opened_ceiling m cfg ft ft1 w :
  cfg = configuration_ w -> ft = file_tracker_ w ->
  max_size cfg < two64 ->
  FileTracker.new_file cfg m ft = (Ok tt, ft1) ->
  new_file_ceiling (opened m ft1 w) =
    N.min (max_file_size cfg) (max_size cfg - FileTracker.get_total_size ft) /\
  m <= new_file_ceiling (opened m ft1 w).
Proof.
  intros -> -> Hlt H. apply file_tracker_new_file_ok in H.
  destruct H as (H1 & H2 & H3 & _).
  assert (E : new_file_ceiling (opened m ft1 w) =
              N.min (max_file_size (configuration_ w))
                (max_size (configuration_ w) -
                 FileTracker.get_total_size (file_tracker_ w))).
  { destruct w. unfold new_file_ceiling, opened. cbn in *.
    rewrite H3, sub64_exact by lia. reflexivity. }
  split; [exact E|]. rewrite E. lia.
Qed.


End OpenNewFileProtocol.

Section RolloverProtocol.

Variable c : Constants.
Variable codec_status : list Event -> bool.


End RolloverProtocol.









(** A writer with types recorded, a cached schema and channel and a staged
    20-byte payload in a 100-byte file, on a disk budget of 1000 bytes. *)
Definition staged : McapWriter :=
  run (update_dynamic_types c0 codec_ok (types 20))
    (run (write c0 codec_ok (IChannel channel1))
       (run (write c0 codec_ok (ISchema schema1))
          (run (enable c0 codec_ok)
             (run (set_on_disk_full_callback true)
                (McapWriter_new c0 (mkSettings 100 1000 0)
                   FileTracker.create true))))).

(** The same after a 50-byte message. *)
Definition rolling : McapWriter :=
  run (write c0 codec_ok (IMessage (msg 50))) staged.


(** What the rollover of [rolling] comes to: the 20-byte attachment goes
    into the file that is closed; the new file is asked for with 70 bytes
    and opened with a ceiling of 100; the schema, the channel and the
    reservation of the attachment follow the version record, and 48 bytes of
    the new file are taken, 28 of them written. *)
Lemma rollover_of_rolling :
  landmarks (log (run (on_mcap_full_nts_ c0 codec_ok 30) rolling)) =
    landmarks (log rolling) ++
    [EvWriteAttachment (mkAttachment DYNAMIC_TYPES_ATTACHMENT_NAME [] 20) true;
     EvClose; EvNewFile 70; EvOpen 1 true; EvInit 100 0;
     EvWriteMetadata (version_metadata c0) true;
     EvAddSchema schema1; EvAddChannel channel1; EvReserveAttachment 20 0] /\
  size_tracker_ (run (on_mcap_full_nts_ c0 codec_ok 30) rolling) =
    SizeTracker.mk 100 0 48 28 20.
Proof. split; vm_compute; reflexivity. Qed.


(** ** Reservation, codec call, commit *)

Section ReserveCommit.

Variable c : Constants.
Variable codec_status : list Event -> bool.

(** The outcome [r] of a write routine run on [w] that reserves [sz] bytes
    and then hands the item to the codec (log entry [ev]): a refused
    reservation throws with the codec not called; a granted one is followed
    at once by the codec call, and when the codec reports an error nothing
    further happens: the committed size is as before, the reservation
    stays, and the writer is as enabled as it was. *)
Definition reserve_then_codec (sz : N) (ev : bool -> Event)
  (r : Res unit * McapWriter) (w : McapWriter) : Prop :=
  let ok := codec_status (log w ++ [EvReserve sz]) in
  match SizeTracker.to_write sz (size_tracker_ w) with
  | (Raise e, _) => r = (Raise e, set_log (log w ++ [EvReserve sz]) w)
  | (Ok _, _) =>
      exists w' rest,
        r = (Ok tt, w') /\
        log w' = log w ++ EvReserve sz :: ev ok :: rest /\
        (ok = false ->
           rest = [] /\
           SizeTracker.written (size_tracker_ w') =
             SizeTracker.written (size_tracker_ w) /\
           SizeTracker.potential (size_tracker_ w') =
             SizeTracker.potential (size_tracker_ w) + sz /\
           enabled_ w' = enabled_ w)
  end.

(** The outcome of a write routine that hands the item to the codec without
    a reservation of its own. *)
Definition codec_without_reservation (ev : bool -> Event)
  (r : Res unit * McapWriter) (w : McapWriter) : Prop :=
  let ok := codec_status (log w) in
  exists w' rest,
    r = (Ok tt, w') /\
    log w' = log w ++ ev ok :: rest /\
    Forall (fun e => match e with
                     | EvCommit _ | EvSetFileSize _ => True
                     | _ => False
                     end) rest /\
    (ok = false ->
       rest = [] /\ size_tracker_ w' = size_tracker_ w /\
       enabled_ w' = enabled_ w).

Ltac run_write :=
  unfold item_to_write, item_written, record_potential_size,
    set_current_file_size, emit, tracker_call, tracker_do, codec, bind,
    modify, get, ret, SizeTracker.to_write;
  cbn.

(** C3 (as amended).  The write of a Message on an enabled writer and the
    write of a Metadata record reserve the item's bytes before the codec is
    called; the write of an Attachment makes no reservation (its bytes were
    reserved when the payload was staged).  In all three, a codec error ends
    the call with the committed written size unchanged and the writer as
    enabled as before. *)
Theorem write_reserves_then_calls_codec_and_error_commits_nothing :
  (forall m w,
     enabled_ w = true ->
     reserve_then_codec (message_size c (msg_dataSize m)) (EvWriteMessage m)
       (write_nts_ c codec_status (IMessage m) w) w) /\
  (forall md w,
     reserve_then_codec (metadata_size c md) (EvWriteMetadata md)
       (write_nts_ c codec_status (IMetadata md) w) w) /\
  (forall a w,
     codec_without_reservation (EvWriteAttachment a)
       (write_nts_ c codec_status (IAttachment a) w) w).
Proof.
  split; [|split].
  - intros m w He. unfold reserve_then_codec. cbn [write_nts_].
    unfold write_nts_message. run_write. rewrite He. cbn.
    destruct w as [cfg ft rt en st pl sc ch lam lg]; cbn in *.
    destruct st as [cl mg po wr pa]; cbn.
    destruct (_ <? _); cbn; [reflexivity|].
    destruct (codec_status (lg ++ [EvReserve _])) eqn:Eok; cbn.
    + do 2 eexists. split; [reflexivity|]. rewrite <- !app_assoc. cbn.
      split; [reflexivity | discriminate].
    + do 2 eexists. split; [reflexivity|]. rewrite <- !app_assoc. cbn.
      split; [reflexivity | intros _; repeat split; assumption].
  - intros md w. unfold reserve_then_codec. cbn [write_nts_].
    unfold write_nts_metadata. run_write.
    destruct w as [cfg ft rt en st pl sc ch lam lg]; cbn in *.
    destruct st as [cl mg po wr pa]; cbn.
    destruct (_ <? _); cbn; [reflexivity|].
    destruct (codec_status (lg ++ [EvReserve _])) eqn:Eok; cbn.
    + do 2 eexists. split; [reflexivity|]. rewrite <- !app_assoc. cbn.
      split; [reflexivity | discriminate].
    + do 2 eexists. split; [reflexivity|]. rewrite <- !app_assoc. cbn.
      split; [reflexivity | intros _; repeat split].
  - intros a w. unfold codec_without_reservation. cbn [write_nts_].
    unfold write_nts_attachment. run_write.
    destruct w as [cfg ft rt en st pl sc ch lam lg]; cbn in *.
    destruct (codec_status lg) eqn:Eok; cbn.
    + do 2 eexists. split; [reflexivity|]. rewrite <- !app_assoc. cbn.
      split; [reflexivity|]. split; [repeat constructor | discriminate].
    + do 2 eexists. split; [reflexivity|].
      split; [reflexivity|]. split; [constructor | intros _; repeat split].
Qed.

End ReserveCommit.

Definition attachment20 : Attachment :=
  mkAttachment DYNAMIC_TYPES_ATTACHMENT_NAME [] 20.

Lemma write_reserves_then_calls_codec_and_error_commits_nothing_witness :
  reserve_then_codec codec_ok 30 (EvWriteMessage (msg 30))
    (write_nts_ c0 codec_ok (IMessage (msg 30)) staged) staged.
Proof.
  apply (proj1 (write_reserves_then_calls_codec_and_error_commits_nothing
                  c0 codec_ok) (msg 30) staged).
  reflexivity.
Defined.

Definition is_reservation (e : Event) : bool :=
  match e with EvReserve _ | EvReserveAttachment _ _ => true | _ => false end.

(** A freshly enabled writer: one open file holding the version record. *)
Definition just_enabled : McapWriter :=
  run (enable c0 codec_ok)
    (McapWriter_new c0 (mkSettings 100 1000 0) FileTracker.create true).

(** C3 (as stated) fails for the Attachment: with room for it in the file,
    its write does not start with a reservation of its bytes.  Here no
    payload was ever staged, so the 20 bytes were not reserved earlier
    either: the write logs no reservation at all, the potential size stays
    and the written size grows by 20. *)
Lemma attachment_write_makes_no_reservation :
  fst (SizeTracker.to_write 20 (size_tracker_ just_enabled)) = Ok tt /\
  ~ reserve_then_codec codec_ok 20 (EvWriteAttachment attachment20)
      (write_nts_ c0 codec_ok (IAttachment attachment20) just_enabled)
      just_enabled /\
  filter is_reservation
    (log (run (write c0 codec_ok (IAttachment attachment20)) just_enabled)) =
    filter is_reservation (log just_enabled) /\
  SizeTracker.potential
    (size_tracker_ (run (write c0 codec_ok (IAttachment attachment20)) just_enabled)) =
    SizeTracker.potential (size_tracker_ just_enabled) /\
  SizeTracker.written
    (size_tracker_ (run (write c0 codec_ok (IAttachment attachment20)) just_enabled)) =
    SizeTracker.written (size_tracker_ just_enabled) + 20.
Proof.
  split; [vm_compute; reflexivity|]. split.
  - unfold reserve_then_codec.
    change (SizeTracker.to_write 20 (size_tracker_ just_enabled))
      with (Ok tt, SizeTracker.mk 100 0 40 20 0).
    cbv zeta iota. intros (w' & rest & E & L & _).
    apply (f_equal (fun r => log (snd r))) in E. cbn [snd] in E.
    rewrite L in E. vm_compute in E.
    discriminate E.
  - split; [vm_compute; reflexivity|].
    split; vm_compute; reflexivity.
Qed.

(** ** The dynamic-types attachment at close *)

Section CloseAttachment.

Variable c : Constants.
Variable codec_status : list Event -> bool.

(** C5 (as amended).  When types are recorded and a payload has been staged,
    closing the file hands the attachment named [dynamic_types], carrying the
    payload staged last, to the codec, and this is the last landmark of the
    file before the codec is closed. *)
Theorem close_writes_staged_attachment_before_codec_close w p :
  record_types_ w = true ->
  dynamic_types_payload_ w = Some p ->
  exists wc,
    close_current_file_nts_ c codec_status w = (Ok tt, wc) /\
    landmarks (log wc) =
      landmarks (log w) ++
      [EvWriteAttachment
         (mkAttachment DYNAMIC_TYPES_ATTACHMENT_NAME (payload_data p)
            (payload_length p))
         (codec_status (log w));
       EvClose].
Proof.
  intros Hr Hp.
  destruct (close_current_file_nts_ok c codec_status w) as (wc & E & S & _).
  exists wc. split; [exact E|].
  unfold step_adds, closing_landmarks, staged_attachment in S.
  rewrite Hr, Hp in S. exact S.
Qed.

End CloseAttachment.

Lemma close_writes_staged_attachment_before_codec_close_witness :
  exists wc,
    close_current_file_nts_ c0 codec_ok staged = (Ok tt, wc) /\
    landmarks (log wc) =
      landmarks (log staged) ++
      [EvWriteAttachment (mkAttachment DYNAMIC_TYPES_ATTACHMENT_NAME [] 20) true;
       EvClose].
Proof.
  apply (@close_writes_staged_attachment_before_codec_close
           c0 codec_ok staged (types 20)); reflexivity.
Defined.

Definition is_attachment_write (e : Event) : bool :=
  match e with EvWriteAttachment _ _ => true | _ => false end.

Definition is_codec_close (e : Event) : bool :=
  match e with EvClose => true | _ => false end.

(** C5 (as stated) fails: with types recorded but no payload staged yet, a
    file is closed without any attachment. *)
Lemma close_without_staged_payload_writes_no_attachment :
  record_types_ one_file = true /\
  enabled_ one_file = true /\
  existsb is_codec_close (log (run (disable c0 codec_ok) one_file)) = true /\
  existsb is_attachment_write (log (run (disable c0 codec_ok) one_file)) = false.
Proof.
  split; [vm_compute; reflexivity|]. split; [vm_compute; reflexivity|].
  split; vm_compute; reflexivity.
Qed.

(** ** update_dynamic_types *)


Section Appends.

Variable c : Constants.
Variable codec_status : list Event -> bool.

















End Appends.

Section UpdateDynamicTypes.

Variable c : Constants.
Variable codec_status : list Event -> bool.

(** The last two statements of [update_dynamic_types], run on [w]: the
    payload is replaced and the file tracker is told the potential size. *)
Definition payload_staged (p : SerializedPayload) (w : McapWriter) : McapWriter :=
  let w1 := set_payload (Some p) w in
  let n := SizeTracker.get_potential_mcap_size (size_tracker_ w1) in
  set_file_tracker (FileTracker.set_current_file_size n (file_tracker_ w1))
    (set_log (log w1 ++ [EvSetFileSize n]) w1).

(** The record size the reservation gives back: that of the payload staged
    so far, nothing when none is. *)
Definition staged_size (w : McapWriter) : N :=
  match dynamic_types_payload_ w with
  | Some old => attachment_size c (payload_length old)
  | None => 0
  end.

(** The writer after [on_disk_full_()]. *)
Definition notified (w : McapWriter) : McapWriter :=
  set_log (log w ++ disk_full_notice w) w.

Lemma update_dynamic_types_payload_eq p w :
  update_dynamic_types_payload c p w =
  attachment_to_write (attachment_size c (payload_length p)) (staged_size w) w.
Proof.
  unfold update_dynamic_types_payload, staged_size, bind, get.
  destruct (dynamic_types_payload_ w); reflexivity.
Qed.

Lemma attachment_to_write_eq sz rm w :
  attachment_to_write sz rm w =
  let w1 := set_log (log w ++ [EvReserveAttachment sz rm]) w in
  match SizeTracker.attachment_to_write sz rm (size_tracker_ w) with
  | (r, st1) => (r, set_size_tracker st1 w1)
  end.
Proof.
  unfold attachment_to_write, emit, tracker_call, bind, modify. cbn.
  destruct (SizeTracker.attachment_to_write sz rm (size_tracker_ w)).
  reflexivity.
Qed.

(** The reservation only ever throws FileFull, carrying the new size. *)
Lemma update_dynamic_types_payload_raise p w e w1 :
  update_dynamic_types_payload c p w = (Raise e, w1) ->
  e = FullFileException (attachment_size c (payload_length p)).
Proof.
  rewrite update_dynamic_types_payload_eq, attachment_to_write_eq. cbv zeta.
  unfold SizeTracker.attachment_to_write.
  destruct (_ <? _); intros [= <- _]; reflexivity.
Qed.

Lemma update_dynamic_types_finish p (m : W unit) w :
  bind m (fun _ => bind (modify (set_payload (Some p)))
                        (fun _ => record_potential_size)) w =
  match m w with
  | (Ok _, w1) => (Ok tt, payload_staged p w1)
  | (Raise e, w1) => (Raise e, w1)
  end.
Proof.
  unfold bind at 1. destruct (m w) as [[[]|e] w1]; reflexivity.
Qed.

(** What the handler [catch (const FullDiskException&)] makes of an
    exception [e] that reaches it in the state [w]. *)
Lemma caught_full_disk e w :
  match catch_full_disk c e with
  | Some k => k w
  | None => (Raise e, w)
  end =
  match e with
  | FullDiskException => (Ok tt, notified w)
  | FullFileException _ =>
      if full_file_is_full_disk c then (Ok tt, notified w) else (Raise e, w)
  | _ => (Raise e, w)
  end.
Proof.
  destruct e; cbn [catch_full_disk]; try reflexivity.
  - destruct (full_file_is_full_disk c); [apply on_disk_full_eq | reflexivity].
  - apply on_disk_full_eq.
Qed.

(** [update_dynamic_types] once its first reservation was refused. *)
Lemma update_dynamic_types_refused p w n w1 :
  update_dynamic_types_payload c p w = (Raise (FullFileException n), w1) ->
  update_dynamic_types c codec_status p w =
  match
    match on_mcap_full_nts_ c codec_status n w1 with
    | (Ok _, w2) => update_dynamic_types_payload c p w2
    | (Raise e, w2) => (Raise e, w2)
    end
  with
  | (Ok _, w3) => (Ok tt, payload_staged p w3)
  | (Raise FullDiskException, w3) => (Ok tt, payload_staged p (notified w3))
  | (Raise (FullFileException k), w3) =>
      if full_file_is_full_disk c
      then (Ok tt, payload_staged p (notified w3))
      else (Raise (FullFileException k), w3)
  | (Raise e, w3) => (Raise e, w3)
  end.
Proof.
  intro E1. unfold update_dynamic_types. rewrite update_dynamic_types_finish.
  unfold try_catch at 1. rewrite E1. unfold try_catch, bind.
  destruct (on_mcap_full_nts_ c codec_status n w1) as [[[]|e2] w2].
  - destruct (update_dynamic_types_payload c p w2) as [[[]|e3] w3];
      [reflexivity|].
    rewrite caught_full_disk.
    destruct e3; try reflexivity.
    destruct (full_file_is_full_disk c); reflexivity.
  - rewrite caught_full_disk.
    destruct e2; try reflexivity.
    destruct (full_file_is_full_disk c); reflexivity.
Qed.


End UpdateDynamicTypes.



(** What the call on [rolling] comes to: the 40-byte payload does not fit
    the 98 bytes taken of 100; the file is closed with the 20-byte attachment
    in it and a second one opened, on which the reservation of 40 bytes in
    place of 20 is granted. *)
Lemma update_dynamic_types_on_rolling :
  landmarks (log (run (update_dynamic_types c0 codec_ok (types 40)) rolling)) =
    landmarks (log rolling) ++
    [EvReserveAttachment 40 20;
     EvWriteAttachment (mkAttachment DYNAMIC_TYPES_ATTACHMENT_NAME [] 20) true;
     EvClose; EvNewFile 80; EvOpen 1 true; EvInit 100 0;
     EvWriteMetadata (version_metadata c0) true;
     EvAddSchema schema1; EvAddChannel channel1; EvReserveAttachment 20 0;
     EvReserveAttachment 40 20] /\
  dynamic_types_payload_
    (run (update_dynamic_types c0 codec_ok (types 40)) rolling) =
    Some (types 40) /\
  size_tracker_ (run (update_dynamic_types c0 codec_ok (types 40)) rolling) =
    SizeTracker.mk 100 0 68 28 40.
Proof.
  split; [vm_compute; reflexivity|]. split; vm_compute; reflexivity.
Qed.

(** A codec that works on the first file only: every call made after a file
    was closed fails. *)
Definition codec_one_file (h : list Event) : bool :=
  negb (existsb (fun e => match e with EvClose => true | _ => false end) h).

Section UpdateNotAtomic.

Variable c : Constants.
Variable codec_status : list Event -> bool.

Lemma payload_staged_facts p w :
  dynamic_types_payload_ (payload_staged p w) = Some p /\
  size_tracker_ (payload_staged p w) = size_tracker_ w /\
  log (payload_staged p w) =
    log w ++ [EvSetFileSize (SizeTracker.get_potential_mcap_size (size_tracker_ w))] /\
  file_tracker_ (payload_staged p w) =
    FileTracker.set_current_file_size
      (SizeTracker.get_potential_mcap_size (size_tracker_ w)) (file_tracker_ w).
Proof. destruct w; repeat split. Qed.

Lemma set_current_file_size_sets n ft f :
  FileTracker.current_file (FileTracker.set_current_file_size n ft) = Some f ->
  snd f = n.
Proof.
  unfold FileTracker.set_current_file_size.
  destruct (FileTracker.current_file ft) as [g|] eqn:E; cbn.
  - intros [= <-]. reflexivity.
  - rewrite E. discriminate.
Qed.

Lemma keeps_payload_of_obs A (m : W A) :
  keeps obs m -> keeps dynamic_types_payload_ m.
Proof.
  intros H w. specialize (H w). unfold obs in H.
  injection H as _ _ _ _ H _. exact H.
Qed.

Lemma keeps_obs_update_dynamic_types_payload p :
  keeps obs (update_dynamic_types_payload c p).
Proof.
  unfold update_dynamic_types_payload. apply keeps_bind; [apply keeps_get|].
  intro a. destruct (dynamic_types_payload_ a);
    apply keeps_obs_attachment_to_write.
Qed.

(** The rollover and the retried reservation leave the staged payload
    alone. *)
Lemma keeps_payload_retry p n :
  keeps dynamic_types_payload_
    (bind (on_mcap_full_nts_ c codec_status n)
          (fun _ => update_dynamic_types_payload c p)).
Proof.
  apply keeps_bind;
    [|intros _; apply keeps_payload_of_obs,
                  keeps_obs_update_dynamic_types_payload].
  unfold on_mcap_full_nts_.
  apply keeps_bind; [apply keeps_payload_of_obs, keeps_obs_close|intros _].
  apply keeps_bind; [apply keeps_modify; intros []; reflexivity|intros _].
  apply keeps_bind; [apply keeps_get|intro w0].
  destruct (_ =? _); [apply keeps_throw|].
  apply keeps_bind;
    [apply keeps_payload_of_obs, keeps_obs_open_new_file
    |intros _; apply keeps_modify; intros []; reflexivity].
Qed.

(** C9 (as amended).  Every call of [update_dynamic_types p] that returns
    has replaced the staged payload by [p] and, as its last act, told the
    file tracker the potential size of the size tracker, which is then the
    recorded size of the current file.  This includes the call whose
    reservation is refused and whose rollover meets DiskFull: it returns,
    with the payload replaced and the size tracker exactly as the failed
    rollover left it, no reservation for [p] having been granted.  A call
    that is left by an exception has done neither: it ends where the
    exception was raised, in the rollover or in the retried reservation,
    with the payload staged before still in place. *)
Theorem update_dynamic_types_replaces_payload_without_reservation p w :
  (forall w',
     update_dynamic_types c codec_status p w = (Ok tt, w') ->
     dynamic_types_payload_ w' = Some p /\
     (exists l,
        log w' = l ++ [EvSetFileSize
                         (SizeTracker.get_potential_mcap_size (size_tracker_ w'))]) /\
     (forall f, FileTracker.current_file (file_tracker_ w') = Some f ->
                snd f = SizeTracker.get_potential_mcap_size (size_tracker_ w'))) /\
  (forall n w1 w2,
     update_dynamic_types_payload c p w = (Raise (FullFileException n), w1) ->
     on_mcap_full_nts_ c codec_status n w1 = (Raise FullDiskException, w2) ->
     exists w',
       update_dynamic_types c codec_status p w = (Ok tt, w') /\
       dynamic_types_payload_ w' = Some p /\
       size_tracker_ w' = size_tracker_ w2 /\
       enabled_ w' = false) /\
  (forall e w',
     update_dynamic_types c codec_status p w = (Raise e, w') ->
     dynamic_types_payload_ w' = dynamic_types_payload_ w /\
     exists n w1,
       update_dynamic_types_payload c p w = (Raise (FullFileException n), w1) /\
       bind (on_mcap_full_nts_ c codec_status n)
            (fun _ => update_dynamic_types_payload c p) w1 = (Raise e, w')).
Proof.
  split; [|split].
  - intros w' H. unfold update_dynamic_types in H.
    rewrite update_dynamic_types_finish in H.
    destruct (try_catch _ _ w) as [[[]|e] w1]; [|discriminate].
    injection H as <-.
    destruct (payload_staged_facts p w1) as (Hp & Hs & Hl & Hf).
    split; [exact Hp|]. rewrite Hs. split.
    + exists (log w1). exact Hl.
    + intros f Hc. rewrite Hf in Hc.
      exact (set_current_file_size_sets _ _ Hc).
  - intros n w1 w2 H1 H2.
    exists (payload_staged p (set_log (log w2 ++ disk_full_notice w2) w2)).
    split.
    + unfold update_dynamic_types. rewrite update_dynamic_types_finish.
      rewrite (@rollover_disk_full c codec_status _ w _ _ w2 H1 H2).
      reflexivity.
    + apply on_mcap_full_nts_raise in H2. unfold obs in H2.
      injection H2 as He _ _ _ _ _.
      destruct w2; repeat split. exact He.
  - intros e w' H.
    pose proof (keeps_payload_of_obs (keeps_obs_update_dynamic_types_payload p) w)
      as K1.
    destruct (update_dynamic_types_payload c p w) as [[[]|e1] w1] eqn:E1.
    + unfold update_dynamic_types in H.
      rewrite update_dynamic_types_finish in H.
      unfold try_catch in H. rewrite E1 in H. discriminate.
    + pose proof (@update_dynamic_types_payload_raise c p w e1 w1 E1) as ->.
      rewrite (@update_dynamic_types_refused c codec_status p w _ w1 E1) in H.
      pose proof (keeps_payload_retry p
                    (attachment_size c (payload_length p)) w1) as K2.
      cbn [snd] in K1.
      assert (R : bind (on_mcap_full_nts_ c codec_status
                          (attachment_size c (payload_length p)))
                    (fun _ => update_dynamic_types_payload c p) w1 =
                  (Raise e, w')).
      { unfold bind.
        destruct (on_mcap_full_nts_ c codec_status _ w1) as [[[]|e2] w2].
        - destruct (update_dynamic_types_payload c p w2) as [[[]|e3] w3];
            [discriminate|].
          destruct e3; try exact H.
          + destruct (full_file_is_full_disk c); [discriminate | exact H].
          + discriminate.
        - destruct e2; try exact H.
          + destruct (full_file_is_full_disk c); [discriminate | exact H].
          + discriminate. }
      rewrite R in K2. cbn [snd] in K2.
      split; [congruence|].
      exists (attachment_size c (payload_length p)), w1.
      split; [reflexivity | exact R].
Qed.

End UpdateNotAtomic.

(** C9 (as stated) fails: the payload is not replaced after every call.
    [rolling] is the same writer when its codec is one that works on the
    first file only.  Its 40-byte payload does not fit the open file; the
    rollover closes that file and the codec cannot open the next one: the
    call is left by the initialization error, the 20-byte payload is still
    the one staged, and the file the file tracker has handed out stands at
    the size 0 it was created with. *)
Lemma update_dynamic_types_left_by_exception_keeps_old_payload :
  rolling =
    run (write c0 codec_one_file (IMessage (msg 50)))
      (run (update_dynamic_types c0 codec_one_file (types 20))
         (run (write c0 codec_one_file (IChannel channel1))
            (run (write c0 codec_one_file (ISchema schema1))
               (run (enable c0 codec_one_file)
                  (run (set_on_disk_full_callback true)
                     (McapWriter_new c0 (mkSettings 100 1000 0)
                        FileTracker.create true)))))) /\
  dynamic_types_payload_ rolling = Some (types 20) /\
  fst (update_dynamic_types c0 codec_one_file (types 40) rolling) =
    Raise InitializationException /\
  dynamic_types_payload_
    (run (update_dynamic_types c0 codec_one_file (types 40)) rolling) =
    Some (types 20) /\
  FileTracker.current_file
    (file_tracker_ (run (update_dynamic_types c0 codec_one_file (types 40)) rolling))
    = Some (1, 0).
Proof.
  split; [vm_compute; reflexivity|]. split; [vm_compute; reflexivity|].
  split; [vm_compute; reflexivity|]. split; vm_compute; reflexivity.
Qed.

Lemma update_dynamic_types_replaces_payload_without_reservation_witness :
  (dynamic_types_payload_
     (run (update_dynamic_types c0 codec_ok (types 50)) one_file) =
     Some (types 50)) /\
  (exists w',
     update_dynamic_types c0 codec_ok (types 50) one_file = (Ok tt, w') /\
     dynamic_types_payload_ w' = Some (types 50) /\
     size_tracker_ w' =
       size_tracker_ (run (on_mcap_full_nts_ c0 codec_ok 50)
                        (run (update_dynamic_types_payload c0 (types 50)) one_file)) /\
     enabled_ w' = false) /\
  dynamic_types_payload_
    (run (update_dynamic_types c0 codec_one_file (types 40)) rolling) =
    dynamic_types_payload_ rolling.
Proof.
  destruct (update_dynamic_types_replaces_payload_without_reservation
              c0 codec_ok (types 50) one_file) as (H1 & H2 & _).
  destruct (update_dynamic_types_replaces_payload_without_reservation
              c0 codec_one_file (types 40) rolling) as (_ & _ & H3).
  split; [|split].
  - apply (H1 (run (update_dynamic_types c0 codec_ok (types 50)) one_file)).
    vm_compute. reflexivity.
  - apply (H2 50 (run (update_dynamic_types_payload c0 (types 50)) one_file)).
    + vm_compute. reflexivity.
    + vm_compute. reflexivity.
  - apply (H3 InitializationException
              (run (update_dynamic_types c0 codec_one_file (types 40)) rolling)).
    vm_compute. reflexivity.
Defined.

(** ** enable and disable *)



Section EnableDisable.

Variable c : Constants.
Variable codec_status : list Event -> bool.

Lemma disable_eq w :
  disable c codec_status w =
  if enabled_ w
  then (Ok tt, set_enabled false
                 (set_channels [] (snd (close_current_file_nts_ c codec_status w))))
  else (Ok tt, w).
Proof.
  unfold disable. unfold bind at 1. cbn [get].
  destruct (enabled_ w); cbn [negb]; [|reflexivity].
  unfold bind at 1.
  destruct (close_current_file_nts_ok c codec_status w) as (wc & E & _).
  rewrite E. reflexivity.
Qed.








End EnableDisable.

(** The writer [staged] after [disable()]. *)
Definition staged_disabled : McapWriter := run (disable c0 codec_ok) staged.


(** ** Sizes told to the file tracker *)

Section RecordedSizes.

Variable c : Constants.
Variable codec_status : list Event -> bool.

(** The committed size of the file when [close_current_file_nts_] records
    it: the written size, plus the staged attachment if the codec took it. *)
Definition written_at_close (w : McapWriter) : N :=
  SizeTracker.written (size_tracker_ w) +
  match staged_attachment w with
  | Some a => if codec_status (log w)
              then attachment_size c (attachment_dataSize a)
              else 0
  | None => 0
  end.

Ltac run_all :=
  unfold write_nts_attachment, write_nts_channel, write_nts_message,
    write_nts_metadata, write_nts_schema, write_nts_channel_at,
    write_nts_schema_at, item_to_write, item_written,
    record_potential_size, set_current_file_size, emit, tracker_call,
    tracker_do, codec, bind, modify, get, ret, SizeTracker.to_write,
    FileTracker.set_current_file_size;
  cbn.

Ltac in_cases :=
  repeat match goal with
         | H : In _ _ |- _ => cbn in H
         | H : _ \/ _ |- _ => destruct H
         | H : False |- _ => destruct H
         | H : _ = _ |- _ => first [discriminate H | injection H as <-]
         end.

(** What a successful write tells the file tracker. *)
Lemma write_nts_records_potential i w w' :
  write_nts_ c codec_status i w = (Ok tt, w') ->
  exists d,
    log w' = log w ++ d /\
    (forall n, In (EvSetFileSize n) d ->
       n = SizeTracker.get_potential_mcap_size (size_tracker_ w') /\
       forall f, FileTracker.current_file (file_tracker_ w') = Some f ->
                 snd f = n) /\
    (forall sz, In (EvCommit sz) d ->
       In (EvSetFileSize (SizeTracker.get_potential_mcap_size (size_tracker_ w'))) d).
Proof.
  destruct w as [cfg ft rt en st pl sc ch lam lg].
  destruct st as [cl mg po wr pa]. destruct ft as [cf [cur|] nx].
  all: destruct i; cbn [write_nts_]; run_all.
  all: repeat match goal with
         | |- context [if ?b then _ else _] => destruct b; cbn
         end.
  all: intros [= <-]; cbn.
  all: eexists; (split; [rewrite <- ?app_assoc; cbn;
                          first [reflexivity | symmetry; apply app_nil_r]|]).
  all: split; [intros n Hin | intros sz Hin]; in_cases; cbn; auto.
  all: try (split; [reflexivity | intros f [= <-]; reflexivity]).
  all: try (split; [reflexivity | intros f Hf; discriminate Hf]).
Qed.

(** What closing records. *)
Lemma close_records_written w name sz :
  FileTracker.current_file (file_tracker_ w) = Some (name, sz) ->
  exists wc,
    close_current_file_nts_ c codec_status w = (Ok tt, wc) /\
    file_tracker_ wc =
      FileTracker.mk
        (FileTracker.closed_files (file_tracker_ w) ++ [(name, written_at_close w)])
        None (FileTracker.next_name (file_tracker_ w)).
Proof.
  destruct w as [cfg ft rt en st pl sc ch lam lg].
  destruct st as [cl mg po wr pa]. destruct ft as [cf cur nx].
  cbn. intros ->.
  unfold close_current_file_nts_, write_attachment_nts_, written_at_close,
    staged_attachment.
  cbn [write_nts_]. run_all. unfold FileTracker.close_file, FileTracker.retire.
  destruct rt; [destruct pl as [p|]|]; cbn.
  - destruct (codec_status lg); cbn; eexists; split; try reflexivity; cbn;
      rewrite ?N.add_0_r; reflexivity.
  - eexists; split; [reflexivity|]. cbn. rewrite N.add_0_r. reflexivity.
  - eexists; split; [reflexivity|]. cbn. rewrite N.add_0_r. reflexivity.
Qed.

End RecordedSizes.

Section PotentialThenWritten.

Variable c : Constants.
Variable codec_status : list Event -> bool.

(** C10.  While the file is open, every size a write routine tells the file
    tracker is the potential size (written plus reserved bytes), and a write
    that commits tells it; that size is then the recorded size of the
    current file.  At close the file is retired with the committed written
    size instead, which does not depend on the reserved bytes, and the
    cumulative total becomes the total of the earlier files plus that
    written size. *)
Theorem open_file_records_potential_closed_file_records_written :
  (forall i w w',
     write_nts_ c codec_status i w = (Ok tt, w') ->
     exists d,
       log w' = log w ++ d /\
       (forall n, In (EvSetFileSize n) d ->
          n = SizeTracker.get_potential_mcap_size (size_tracker_ w') /\
          forall f, FileTracker.current_file (file_tracker_ w') = Some f ->
                    snd f = n) /\
       (forall sz, In (EvCommit sz) d ->
          In (EvSetFileSize
                (SizeTracker.get_potential_mcap_size (size_tracker_ w'))) d)) /\
  (forall w name sz,
     FileTracker.current_file (file_tracker_ w) = Some (name, sz) ->
     exists wc,
       close_current_file_nts_ c codec_status w = (Ok tt, wc) /\
       FileTracker.closed_files (file_tracker_ wc) =
         FileTracker.closed_files (file_tracker_ w) ++
         [(name, written_at_close c codec_status w)] /\
       FileTracker.current_file (file_tracker_ wc) = None /\
       FileTracker.get_total_size (file_tracker_ wc) =
         FileTracker.sum_sizes (FileTracker.closed_files (file_tracker_ w)) +
         written_at_close c codec_status w) /\
  (forall w st,
     SizeTracker.written st = SizeTracker.written (size_tracker_ w) ->
     written_at_close c codec_status (set_size_tracker st w) =
     written_at_close c codec_status w).
Proof.
  split; [|split].
  - exact (write_nts_records_potential c codec_status).
  - intros w name sz H.
    destruct (close_records_written c codec_status w H) as (wc & E & F).
    exists wc. split; [exact E|]. rewrite F. cbn.
    split; [reflexivity|]. split; [reflexivity|].
    unfold FileTracker.get_total_size. cbn.
    rewrite sum_sizes_app. cbn. apply N.add_0_r.
  - intros w st H. unfold written_at_close. destruct w; cbn in *.
    rewrite H. reflexivity.
Qed.

End PotentialThenWritten.

(** A codec that refuses the first message written after the file opened. *)
Definition codec_fails_once (h : list Event) : bool :=
  negb (N.of_nat (List.length h) =? 9).

(** A 30-byte message whose codec write failed: 30 bytes stay reserved. *)
Definition stranded : McapWriter :=
  run (write c0 codec_fails_once (IMessage (msg 30)))
    (run (enable c0 codec_fails_once)
       (McapWriter_new c0 (mkSettings 100 1000 0)
          FileTracker.create false)).

Lemma open_file_records_potential_closed_file_records_written_witness :
  SizeTracker.get_potential_mcap_size (size_tracker_ stranded) = 50 /\
  written_at_close c0 codec_fails_once stranded = 20 /\
  exists wc,
    close_current_file_nts_ c0 codec_fails_once stranded = (Ok tt, wc) /\
    FileTracker.closed_files (file_tracker_ wc) =
      FileTracker.closed_files (file_tracker_ stranded) ++
      [(0, written_at_close c0 codec_fails_once stranded)] /\
    FileTracker.current_file (file_tracker_ wc) = None /\
    FileTracker.get_total_size (file_tracker_ wc) =
      FileTracker.sum_sizes (FileTracker.closed_files (file_tracker_ stranded)) +
      written_at_close c0 codec_fails_once stranded.
Proof.
  split; [vm_compute; reflexivity|]. split; [vm_compute; reflexivity|].
  apply (proj1 (proj2 (open_file_records_potential_closed_file_records_written
                         c0 codec_fails_once)) stranded 0 20).
  vm_compute. reflexivity.
Defined.

(** ** The size budget *)

(** The ceiling and margin the size tracker checks reservations against. *)
Definition limits (w : McapWriter) : N * N :=
  (SizeTracker.ceiling (size_tracker_ w), SizeTracker.margin (size_tracker_ w)).

Section Ceiling.

Variable c : Constants.
Variable codec_status : list Event -> bool.

Ltac run_limits :=
  unfold write_nts_attachment, write_nts_channel, write_nts_message,
    write_nts_metadata, write_nts_schema, write_nts_channel_at,
    write_nts_schema_at, item_to_write, item_written,
    record_potential_size, set_current_file_size, emit, tracker_call,
    tracker_do, codec, bind, modify, get, ret, SizeTracker.to_write;
  cbn;
  repeat match goal with
         | |- context [if ?b then _ else _] => destruct b; cbn
         end;
  reflexivity.

Lemma keeps_limits_write_nts_schema_at home s :
  keeps limits (write_nts_schema_at c home s).
Proof.
  intros w. destruct w as [cfg ft rt en st pl sc ch lam lg].
  destruct st as [cl mg po wr pa]. destruct home; run_limits.
Qed.

Lemma keeps_limits_write_nts_channel_at home ch :
  keeps limits (write_nts_channel_at c home ch).
Proof.
  intros w. destruct w as [cfg ft rt en st pl sc chs lam lg].
  destruct st as [cl mg po wr pa]. destruct home; run_limits.
Qed.

Lemma keeps_limits_write_nts_ i : keeps limits (write_nts_ c codec_status i).
Proof.
  intros w. destruct w as [cfg ft rt en st pl sc ch lam lg].
  destruct st as [cl mg po wr pa].
  destruct i; cbn [write_nts_]; run_limits.
Qed.

Lemma keeps_limits_file_preamble : keeps limits (file_preamble c codec_status).
Proof.
  unfold file_preamble, reserve_staged_attachment, write_metadata_nts_,
    write_schemas_nts_, write_channels_nts_.
  repeat first
    [ apply keeps_limits_write_nts_
    | apply keeps_limits_write_nts_schema_at
    | apply keeps_limits_write_nts_channel_at
    | apply keeps_get | apply keeps_ret
    | apply keeps_for_each_in_map; intros ? ?
    | apply keeps_bind; [| intro]
    | match goal with
      | |- keeps _ (if ?b then _ else _) => destruct b
      | |- keeps _ (match ?x with _ => _ end) => destruct x
      end ].
  all: intros w; destruct w as [cfg ft rt en st pl sc ch lam lg];
    destruct st as [cl mg po wr pa];
    unfold attachment_to_write, record_potential_size, set_current_file_size,
      emit, tracker_call, bind, modify, get, SizeTracker.attachment_to_write;
    cbn;
    repeat match goal with
           | |- context [if ?b then _ else _] => destruct b; cbn
           end;
    reflexivity.
Qed.

(** The ceiling of a file that was opened: the smaller of [max_file_size]
    and what the files so far leave of [max_size], and at least the minimum
    size asked for. *)
Lemma new_file_ceiling_is_min_of_file_limit_and_remaining_budget m w w' :
  max_size (configuration_ w) < two64 ->
  open_new_file_nts_ c codec_status m w = (Ok tt, w') ->
  SizeTracker.ceiling (size_tracker_ w') =
    N.min (max_file_size (configuration_ w))
      (max_size (configuration_ w) -
       FileTracker.get_total_size (file_tracker_ w)) /\
  m <= SizeTracker.ceiling (size_tracker_ w').
Proof.
  intros Hlt. rewrite open_new_file_nts_eq.
  destruct (FileTracker.new_file (configuration_ w) m (file_tracker_ w))
    as [[[]|e] ft1] eqn:En; [|discriminate].
  destruct (codec_status (log w ++ [EvNewFile m])); [|discriminate].
  intro H. pose proof (keeps_limits_file_preamble (opened c m ft1 w)) as K.
  rewrite H in K. cbn [snd] in K. unfold limits in K.
  injection K as K _. rewrite K.
  destruct (@opened_ceiling c m _ _ ft1 w eq_refl eq_refl Hlt En) as (Ec & Hc).
  change (SizeTracker.ceiling (size_tracker_ (opened c m ft1 w)))
    with (new_file_ceiling (opened c m ft1 w)).
  split; assumption.
Qed.

End Ceiling.

Lemma new_file_ceiling_is_min_of_file_limit_and_remaining_budget_witness :
  SizeTracker.ceiling
    (size_tracker_ (run (open_new_file_nts_ c0 codec_ok 20) staged_disabled)) =
    N.min (max_file_size (configuration_ staged_disabled))
      (max_size (configuration_ staged_disabled) -
       FileTracker.get_total_size (file_tracker_ staged_disabled)) /\
  20 <= SizeTracker.ceiling
          (size_tracker_ (run (open_new_file_nts_ c0 codec_ok 20) staged_disabled)).
Proof.
  apply (@new_file_ceiling_is_min_of_file_limit_and_remaining_budget
           c0 codec_ok 20 staged_disabled
           (run (open_new_file_nts_ c0 codec_ok 20) staged_disabled)).
  - vm_compute. reflexivity.
  - vm_compute. reflexivity.
Defined.

(** * McapHandler: the ingest gate *)

Module Handler.

(** [McapHandlerStateCode], as built by [ENUMERATION_BUILDER] in
    McapHandler.hpp. *)
Inductive McapHandlerStateCode := STOPPED | RUNNING | PAUSED.

(** [ddspipe::core::types::DdsTopic]: the two names the handler keys on. *)
Record DdsTopic := mkTopic {
  m_topic_name : string;
  type_name : string
}.

(** [RtpsPayloadData]: payload size and source timestamp. *)
Record RtpsPayloadData := mkData {
  data_size : N;
  source_timestamp : N
}.

(** The fields of [McapHandlerConfiguration] that steer [add_data];
    [max_pending_samples] is -1 for unbounded and 0 for no pending queue. *)
Record McapHandlerConfiguration := mkConfig {
  buffer_size : N;
  max_pending_samples : Z;
  only_with_schema : bool
}.

Definition pending_list : Type := list (DdsTopic * McapMessage).

(** The data members of [McapHandler] declared in McapHandler.hpp that
    [add_data] reads or writes.  [schemas_] keeps the registered type names;
    [files] stands for [mcap_writer_]: the messages handed to it so far. *)
Record McapHandler := mkHandler {
  configuration_ : McapHandlerConfiguration;
  state_ : McapHandlerStateCode;
  schemas_ : list string;
  samples_buffer_ : list McapMessage;
  pending_samples_ : list (string * pending_list);
  pending_samples_paused_ : list (string * pending_list);
  unique_sequence_number_ : N;
  files : list McapMessage
}.

Definition has_schema (name : string) (h : McapHandler) : bool :=
  existsb (String.eqb name) (schemas_ h).

Fixpoint lookup (k : string) (m : list (string * pending_list)) : pending_list :=
  match m with
  | [] => []
  | (k', v) :: m' => if String.eqb k k' then v else lookup k m'
  end.

Fixpoint assign (k : string) (v : pending_list)
  (m : list (string * pending_list)) : list (string * pending_list) :=
  match m with
  | [] => [(k, v)]
  | (k', v') :: m' =>
      if String.eqb k k' then (k, v) :: m' else (k', v') :: assign k v m'
  end.

Definition set_buffer (b : list McapMessage) (h : McapHandler) :=
  mkHandler (configuration_ h) (state_ h) (schemas_ h) b (pending_samples_ h)
    (pending_samples_paused_ h) (unique_sequence_number_ h) (files h).

Definition set_pending (p : list (string * pending_list)) (h : McapHandler) :=
  mkHandler (configuration_ h) (state_ h) (schemas_ h) (samples_buffer_ h) p
    (pending_samples_paused_ h) (unique_sequence_number_ h) (files h).

Definition set_pending_paused (p : list (string * pending_list))
  (h : McapHandler) :=
  mkHandler (configuration_ h) (state_ h) (schemas_ h) (samples_buffer_ h)
    (pending_samples_ h) p (unique_sequence_number_ h) (files h).

Definition set_sequence (n : N) (h : McapHandler) :=
  mkHandler (configuration_ h) (state_ h) (schemas_ h) (samples_buffer_ h)
    (pending_samples_ h) (pending_samples_paused_ h) n (files h).

(** Modelled from the spec: [dump_data_nts_], "write in disk samples stored
    in buffer" (McapHandler.cpp is not part of the sources at hand). *)
Definition dump_data_nts_ (h : McapHandler) : McapHandler :=
  mkHandler (configuration_ h) (state_ h) (schemas_ h) []
    (pending_samples_ h) (pending_samples_paused_ h)
    (unique_sequence_number_ h) (files h ++ samples_buffer_ h).

(** Modelled from the spec: [add_data_nts_(msg)], "append to the buffer; if
    the buffer reaches buffer_size, dump it" when RUNNING; when PAUSED the
    sample only joins the buffer. *)
Definition add_data_nts_ (m : McapMessage) (h : McapHandler) : McapHandler :=
  let h1 := set_buffer (samples_buffer_ h ++ [m]) h in
  match state_ h with
  | RUNNING =>
      if buffer_size (configuration_ h) <=? N.of_nat (List.length (samples_buffer_ h1))
      then dump_data_nts_ h1 else h1
  | _ => h1
  end.

(** The queue is full when the cap is not -1 and is reached. *)
Definition queue_full (h : McapHandler) (q : pending_list) : bool :=
  (0 <=? max_pending_samples (configuration_ h))%Z &&
  (max_pending_samples (configuration_ h) <=? Z.of_nat (List.length q))%Z.

(** Modelled from the spec: [add_to_pending_nts_(msg, topic)] in RUNNING,
    "enqueue into pending_samples[type_name], evicting the oldest when the
    per-type queue overflows (evicted samples are written with the blank
    schema unless only_with_schema is set, in which case they are
    discarded)". *)
Definition add_to_pending_nts_ (m : McapMessage) (topic : DdsTopic)
  (h : McapHandler) : McapHandler :=
  let q := lookup (type_name topic) (pending_samples_ h) in
  if queue_full h q
  then match q with
       | oldest :: q' =>
           let h1 := set_pending (assign (type_name topic) q' (pending_samples_ h)) h in
           let h2 := if only_with_schema (configuration_ h) then h1
                     else add_data_nts_ (snd oldest) h1 in
           set_pending (assign (type_name topic) (q' ++ [(topic, m)])
                          (pending_samples_ h2)) h2
       | [] => set_pending (assign (type_name topic) [(topic, m)]
                              (pending_samples_ h)) h
       end
  else set_pending (assign (type_name topic) (q ++ [(topic, m)])
                      (pending_samples_ h)) h.

(** Modelled from the spec: the PAUSED queue, "the same overflow policy, but
    evicted samples are always discarded". *)
Definition add_to_pending_paused_nts_ (m : McapMessage) (topic : DdsTopic)
  (h : McapHandler) : McapHandler :=
  let q := lookup (type_name topic) (pending_samples_paused_ h) in
  let q' := if queue_full h q then tl q else q in
  set_pending_paused (assign (type_name topic) (q' ++ [(topic, m)])
                        (pending_samples_paused_ h)) h.

(** The next value of the [unsigned int] counter. *)
Definition next_sequence_number (h : McapHandler) : N :=
  (unique_sequence_number_ h + 1) mod two32.

(** Modelled from the spec: [McapHandler::add_data(topic, data)].  "STOPPED:
    discard.  RUNNING: if a schema for topic.type_name exists, append to the
    buffer ... Otherwise, if max_pending_samples <> 0, enqueue ...  If
    max_pending_samples = 0, append immediately with the blank schema if
    only_with_schema is false; else discard.  PAUSED: if schema exists,
    append to buffer.  Otherwise enqueue into pending_samples_paused ...
    Every accepted message receives the next sequence number atomically." *)
Definition add_data (topic : DdsTopic) (data : RtpsPayloadData)
  (h : McapHandler) : McapHandler :=
  match state_ h with
  | STOPPED => h
  | st =>
      let m := mkMessage (next_sequence_number h) 0 (source_timestamp data)
                 (data_size data) in
      let h1 := set_sequence (next_sequence_number h) h in
      if has_schema (type_name topic) h1 then add_data_nts_ m h1
      else match st with
           | RUNNING =>
               if (max_pending_samples (configuration_ h1) =? 0)%Z
               then if only_with_schema (configuration_ h1) then h1
                    else add_data_nts_ m h1
               else add_to_pending_nts_ m topic h1
           | _ => add_to_pending_paused_nts_ m topic h1
           end
  end.

(** Every message the handler holds or has handed to the writer. *)
Definition queued (m : list (string * pending_list)) : list McapMessage :=
  flat_map (fun kv => map snd (snd kv)) m.

Definition messages (h : McapHandler) : list McapMessage :=
  samples_buffer_ h ++ queued (pending_samples_ h) ++
  queued (pending_samples_paused_ h) ++ files h.

Lemma in_queued_assign x k v m :
  In x (queued (assign k v m)) -> In x (map snd v) \/ In x (queued m).
Proof.
  induction m as [|[k' v'] m IH]; cbn.
  - rewrite app_nil_r. auto.
  - destruct (String.eqb k k'); cbn; rewrite !in_app_iff; intuition.
Qed.

Lemma in_lookup_queued x k m :
  In x (map snd (lookup k m)) -> In x (queued m).
Proof.
  induction m as [|[k' v'] m IH]; cbn; [auto|].
  rewrite in_app_iff. destruct (String.eqb k k'); auto.
Qed.

Lemma in_messages h x :
  In x (messages h) <->
  In x (samples_buffer_ h) \/ In x (queued (pending_samples_ h)) \/
  In x (queued (pending_samples_paused_ h)) \/ In x (files h).
Proof. unfold messages. rewrite !in_app_iff. reflexivity. Qed.

Lemma add_data_nts_messages m h x :
  In x (messages (add_data_nts_ m h)) -> x = m \/ In x (messages h).
Proof.
  unfold add_data_nts_.
  destruct (state_ h); [| destruct (_ <=? _) |];
    rewrite !in_messages; cbn; rewrite ?in_app_iff; cbn; intuition.
Qed.

Lemma add_data_nts_sequence m h :
  unique_sequence_number_ (add_data_nts_ m h) = unique_sequence_number_ h.
Proof.
  unfold add_data_nts_. destruct (state_ h); cbn;
    try destruct (_ <=? _); reflexivity.
Qed.

Lemma add_to_pending_nts_sequence m topic h :
  unique_sequence_number_ (add_to_pending_nts_ m topic h) =
  unique_sequence_number_ h.
Proof.
  unfold add_to_pending_nts_.
  destruct (queue_full _ _); [|reflexivity].
  destruct (lookup _ _) as [|oldest q']; [reflexivity|].
  destruct (only_with_schema _); cbn; [reflexivity|].
  rewrite add_data_nts_sequence. reflexivity.
Qed.

Lemma in_map_tl (x : McapMessage) (q : pending_list) :
  In x (map snd (tl q)) -> In x (map snd q).
Proof. destruct q; cbn; auto. Qed.

Lemma add_to_pending_nts_messages m topic h x :
  In x (messages (add_to_pending_nts_ m topic h)) -> x = m \/ In x (messages h).
Proof.
  unfold add_to_pending_nts_.
  assert (L : forall y,
            In y (map snd (lookup (type_name topic) (pending_samples_ h))) ->
            In y (messages h)).
  { intros y Hy. apply in_messages. right; left.
    exact (in_lookup_queued _ _ _ Hy). }
  assert (P : forall h0 q y,
            In y (messages (set_pending (assign (type_name topic) q
                                           (pending_samples_ h0)) h0)) ->
            In y (map snd q) \/ In y (messages h0)).
  { intros h0 q y. rewrite !in_messages; cbn. intros [H|[H|H]]; auto.
    apply in_queued_assign in H. destruct H; auto. }
  destruct (queue_full _ _).
  - destruct (lookup _ _) as [|oldest q'] eqn:E.
    + intro H. apply P in H. cbn in H.
      destruct H as [[H|[]]|H]; subst; auto.
    + set (h1 := set_pending (assign (type_name topic) q' (pending_samples_ h)) h).
      assert (H1 : forall y, In y (messages h1) -> In y (messages h)).
      { intros y Hy. apply P in Hy. destruct Hy as [Hy|Hy]; [|exact Hy].
        apply L. cbn. right. exact Hy. }
      assert (H2 : forall h2, (forall y, In y (messages h2) -> In y (messages h)) ->
                In x (messages
                   (set_pending (assign (type_name topic) (q' ++ [(topic, m)])
                                   (pending_samples_ h2)) h2)) ->
                x = m \/ In x (messages h)).
      { intros h2 Hh2 H. apply P in H. rewrite map_app, in_app_iff in H.
        cbn in H. destruct H as [[H|[H|[]]]|H]; subst; auto.
        right. apply L. cbn. right. exact H. }
      destruct (only_with_schema _).
      * apply H2. exact H1.
      * apply H2. intros y Hy. apply add_data_nts_messages in Hy.
        destruct Hy as [->|Hy]; [|exact (H1 _ Hy)].
        apply L. cbn. left. reflexivity.
  - intro H. apply P in H. rewrite map_app, in_app_iff in H. cbn in H.
    destruct H as [[H|[H|[]]]|H]; subst; auto.
Qed.

Lemma add_to_pending_paused_nts_messages m topic h x :
  In x (messages (add_to_pending_paused_nts_ m topic h)) ->
  x = m \/ In x (messages h).
Proof.
  unfold add_to_pending_paused_nts_.
  pose proof (@in_lookup_queued x (type_name topic) (pending_samples_paused_ h)) as L.
  rewrite !in_messages; cbn. intros [H|[H|[H|H]]]; auto.
  apply in_queued_assign in H. rewrite map_app, in_app_iff in H. cbn in H.
  destruct H as [[H|[H|[]]]|H]; subst; auto.
  right. right. right. left. apply L.
  destruct (queue_full _ _); [|exact H].
  apply in_map_tl. exact H.
Qed.

(** The message [add_data] builds for an accepted sample. *)
Definition stamped (data : RtpsPayloadData) (h : McapHandler) : McapMessage :=
  mkMessage (next_sequence_number h) 0 (source_timestamp data) (data_size data).

(** C8.  A sample delivered while the handler is STOPPED leaves the handler
    as it was: nothing is buffered, queued or handed to the writer, and the
    sequence number stays.  A sample delivered in RUNNING or PAUSED advances
    the sequence number by one (modulo 2^32), and the only message the
    handler can hold afterwards that it did not hold before is the one
    stamped with that next number. *)
Theorem stopped_discards_and_accepted_takes_next_sequence_number :
  (forall topic data h,
     state_ h = STOPPED -> add_data topic data h = h) /\
  (forall topic data h,
     state_ h <> STOPPED ->
     unique_sequence_number_ (add_data topic data h) = next_sequence_number h /\
     msg_sequence (stamped data h) = next_sequence_number h /\
     forall m, In m (messages (add_data topic data h)) ->
               m = stamped data h \/ In m (messages h)).
Proof.
  split.
  - intros topic data h H. unfold add_data. rewrite H. reflexivity.
  - intros topic data h H.
    set (h1 := set_sequence (next_sequence_number h) h).
    assert (M1 : forall m, In m (messages h1) -> In m (messages h)).
    { intros m. unfold h1. rewrite !in_messages. cbn. auto. }
    assert (G : forall h2,
              unique_sequence_number_ h2 = next_sequence_number h ->
              (forall m, In m (messages h2) ->
                         m = stamped data h \/ In m (messages h1)) ->
              unique_sequence_number_ h2 = next_sequence_number h /\
              msg_sequence (stamped data h) = next_sequence_number h /\
              forall m, In m (messages h2) ->
                        m = stamped data h \/ In m (messages h)).
    { intros h2 Hs Hm. split; [exact Hs|]. split; [reflexivity|].
      intros m Hin. destruct (Hm m Hin) as [->|Hin']; auto. }
    unfold add_data. fold (stamped data h). fold h1.
    destruct (state_ h) eqn:Es; [congruence| |].
    + destruct (has_schema _ _).
      * apply G; [rewrite add_data_nts_sequence; reflexivity|].
        intros m. apply add_data_nts_messages.
      * destruct (_ =? _)%Z; [destruct (only_with_schema _)|].
        -- apply G; [reflexivity | auto].
        -- apply G; [rewrite add_data_nts_sequence; reflexivity|].
           intros m. apply add_data_nts_messages.
        -- apply G; [rewrite add_to_pending_nts_sequence; reflexivity|].
           intros m. apply add_to_pending_nts_messages.
    + destruct (has_schema _ _).
      * apply G; [rewrite add_data_nts_sequence; reflexivity|].
        intros m. apply add_data_nts_messages.
      * apply G; [reflexivity|].
        intros m. apply add_to_pending_paused_nts_messages.
Qed.

(** A running handler that knows type [T], with one sample buffered. *)
Definition running : McapHandler :=
  mkHandler (mkConfig 3 10 false) RUNNING ["T"%string]
    [mkMessage 1 0 5 8] [] [] 1 [].

Definition stopped : McapHandler :=
  mkHandler (mkConfig 3 10 false) STOPPED ["T"%string]
    [] [] [] 1 [mkMessage 1 0 5 8].

Lemma stopped_discards_and_accepted_takes_next_sequence_number_witness :
  add_data (mkTopic "topic" "T") (mkData 8 6) stopped = stopped /\
  unique_sequence_number_ (add_data (mkTopic "topic" "T") (mkData 8 6) running)
    = 2 /\
  samples_buffer_ (add_data (mkTopic "topic" "T") (mkData 8 6) running)
    = [mkMessage 1 0 5 8; mkMessage 2 0 6 8].
Proof.
  destruct stopped_discards_and_accepted_takes_next_sequence_number as [H1 H2].
  split; [apply H1; reflexivity|].
  split.
  - apply (H2 (mkTopic "topic" "T") (mkData 8 6) running). discriminate.
  - reflexivity.
Defined.

End Handler.

(** * Further properties of McapWriter.cpp *)

(** ** A refused reservation *)

(** The record size [write_nts_] asks the size tracker for. *)
Definition item_record_size (c : Constants) (i : Item) : N :=
  match i with
  | IAttachment a => attachment_size c (attachment_dataSize a)
  | IChannel ch => channel_size c ch
  | IMessage m => message_size c (msg_dataSize m)
  | IMetadata md => metadata_size c md
  | ISchema s => schema_size c s
  end.

Definition is_attachment (i : Item) : bool :=
  match i with IAttachment _ => true | _ => false end.

Section RefusedReservation.

Variable c : Constants.
Variable codec_status : list Event -> bool.

Ltac run_write_nts :=
  unfold write_nts_attachment, write_nts_channel, write_nts_message,
    write_nts_metadata, write_nts_schema, write_nts_channel_at,
    write_nts_schema_at, item_to_write, item_written,
    record_potential_size, set_current_file_size, emit, tracker_call,
    tracker_do, codec, bind, modify, get, ret, SizeTracker.to_write,
    SizeTracker.item_written;
  cbn.

Ltac split_ifs :=
  repeat match goal with
         | |- context [if ?b then _ else _] => destruct b eqn:?; cbn
         end.

(** When an overload of [write_nts_] throws, the exception is the FileFull
    of the size tracker carrying the record size of the item, the codec has
    not been called, and the writer is as before (caches, trackers, flags),
    but for the log entry of the attempt.  The Attachment overload never
    throws. *)
Theorem write_nts_throws_only_file_full_and_changes_nothing i w e w' :
  write_nts_ c codec_status i w = (Raise e, w') ->
  is_attachment i = false /\
  e = FullFileException (item_record_size c i) /\
  w' = set_log (log w ++ [EvReserve (item_record_size c i)]) w.
Proof.
  destruct w as [cfg ft rt en st pl sc ch lam lg].
  destruct st as [cl mg po wr pa].
  destruct i; cbn [write_nts_ item_record_size is_attachment];
    run_write_nts; split_ifs; intros [= <- <-]; repeat split.
Qed.

(** An overload other than the Attachment one that returns has committed no
    more bytes than it reserved: the written size grew by at most what the
    potential size grew by, so a written size within the potential size
    stays within it. *)
Theorem write_nts_commits_at_most_what_it_reserved i w w' :
  is_attachment i = false ->
  write_nts_ c codec_status i w = (Ok tt, w') ->
  SizeTracker.written (size_tracker_ w') + SizeTracker.potential (size_tracker_ w)
    <= SizeTracker.potential (size_tracker_ w') + SizeTracker.written (size_tracker_ w) /\
  (SizeTracker.written (size_tracker_ w) <= SizeTracker.potential (size_tracker_ w) ->
   SizeTracker.written (size_tracker_ w') <= SizeTracker.potential (size_tracker_ w')).
Proof.
  destruct w as [cfg ft rt en st pl sc ch lam lg].
  destruct st as [cl mg po wr pa].
  destruct i; cbn [write_nts_ is_attachment]; try discriminate; intros _;
    run_write_nts; split_ifs; intros [= <-]; cbn;
    unfold schema_size, channel_size, added_schema, added_channel; cbn; lia.
Qed.

End RefusedReservation.

(** [staged] holds 48 potential bytes of 100: a 60-byte message is refused. *)
Lemma write_nts_throws_only_file_full_and_changes_nothing_witness :
  is_attachment (IMessage (msg 60)) = false /\
  FullFileException 60 = FullFileException (item_record_size c0 (IMessage (msg 60))) /\
  run (write_nts_ c0 codec_ok (IMessage (msg 60))) staged =
    set_log (log staged ++ [EvReserve (item_record_size c0 (IMessage (msg 60)))])
      staged.
Proof.
  apply (@write_nts_throws_only_file_full_and_changes_nothing c0 codec_ok
           (IMessage (msg 60)) staged (FullFileException 60)
           (run (write_nts_ c0 codec_ok (IMessage (msg 60))) staged)).
  vm_compute. reflexivity.
Defined.

Lemma write_nts_commits_at_most_what_it_reserved_witness :
  SizeTracker.written
    (size_tracker_ (run (write_nts_ c0 codec_fails_once (IMessage (msg 30)))
                      (run (enable c0 codec_fails_once)
                         (McapWriter_new c0 (mkSettings 100 1000 0)
                            FileTracker.create false)))) <=
  SizeTracker.potential
    (size_tracker_ (run (write_nts_ c0 codec_fails_once (IMessage (msg 30)))
                      (run (enable c0 codec_fails_once)
                         (McapWriter_new c0 (mkSettings 100 1000 0)
                            FileTracker.create false)))).
Proof.
  refine (proj2 (@write_nts_commits_at_most_what_it_reserved c0 codec_fails_once
           (IMessage (msg 30))
           (run (enable c0 codec_fails_once)
              (McapWriter_new c0 (mkSettings 100 1000 0) FileTracker.create false))
           _ eq_refl _) _).
  - vm_compute. reflexivity.
  - vm_compute. discriminate.
Defined.

(** ** What a write leaves in the caches *)

Section Caches.

Variable c : Constants.
Variable codec_status : list Event -> bool.

Ltac run_write_nts :=
  unfold write_nts_attachment, write_nts_channel, write_nts_message,
    write_nts_metadata, write_nts_schema, write_nts_channel_at,
    write_nts_schema_at, item_to_write, item_written,
    record_potential_size, set_current_file_size, emit, tracker_call,
    tracker_do, codec, bind, modify, get, ret, SizeTracker.to_write,
    SizeTracker.item_written;
  cbn.

Ltac split_ifs :=
  repeat match goal with
         | |- context [if ?b then _ else _] => destruct b eqn:?; cbn
         end.

(** What a write that returns leaves in the caches: the Schema or Channel
    written sits, as the codec left it, under the id it then has, every
    other key is as before, and the other item kinds leave both maps
    alone.  The record the codec left is the one handed in but for the id,
    which fits 16 bits. *)
Theorem write_nts_caches_item_under_its_id i w w' :
  write_nts_ c codec_status i w = (Ok tt, w') ->
  match i with
  | ISchema s =>
      map_find (schema_id (added_schema c w s)) (schemas_ w') =
        Some (added_schema c w s) /\
      (forall k, k <> schema_id (added_schema c w s) ->
                 map_find k (schemas_ w') = map_find k (schemas_ w)) /\
      channels_ w' = channels_ w /\
      added_schema c w s =
        mkSchema (schema_id (added_schema c w s)) (schema_name s)
          (schema_encoding s) (schema_data s) /\
      schema_id (added_schema c w s) < two16
  | IChannel ch =>
      map_find (channel_id (added_channel c w ch)) (channels_ w') =
        Some (added_channel c w ch) /\
      (forall k, k <> channel_id (added_channel c w ch) ->
                 map_find k (channels_ w') = map_find k (channels_ w)) /\
      schemas_ w' = schemas_ w /\
      added_channel c w ch =
        mkChannel (channel_id (added_channel c w ch)) (channel_topic ch)
          (channel_schemaId ch) /\
      channel_id (added_channel c w ch) < two16
  | _ => schemas_ w' = schemas_ w /\ channels_ w' = channels_ w
  end.
Proof.
  destruct i; cbn [write_nts_].
  - destruct w as [cfg ft rt en st pl sc ch lam lg].
    run_write_nts; split_ifs; intros [= <-]; split; reflexivity.
  - intro H. apply write_nts_channel_at_ok in H.
    destruct H as (_ & _ & Hs & Hc). rewrite Hc.
    split; [apply map_find_assign_same|].
    split; [intros k Hk; apply map_find_assign_other; exact Hk|].
    split; [exact Hs|]. split; [reflexivity|].
    unfold added_channel. cbn. apply N.mod_lt. discriminate.
  - destruct w as [cfg ft rt en st pl sc ch lam lg].
    run_write_nts; split_ifs; intros [= <-]; split; reflexivity.
  - destruct w as [cfg ft rt en st pl sc ch lam lg].
    destruct st as [cl mg po wr pa].
    run_write_nts; split_ifs; intros [= <-]; split; reflexivity.
  - intro H. apply write_nts_schema_at_ok in H.
    destruct H as (_ & _ & Hc & Hs). rewrite Hs.
    split; [apply map_find_assign_same|].
    split; [intros k Hk; apply map_find_assign_other; exact Hk|].
    split; [exact Hc|]. split; [reflexivity|].
    unfold added_schema. cbn. apply N.mod_lt. discriminate.
Qed.

(** The caches stay keyed by id, with increasing keys, through every
    overload of [write_nts_], whether it returns or throws. *)
Theorem write_nts_keeps_caches_keyed_by_id i w r w' :
  write_nts_ c codec_status i w = (r, w') -> cache_ok w -> cache_ok w'.
Proof.
  destruct w as [cfg ft rt en st pl sc ch lam lg].
  destruct st as [cl mg po wr pa].
  unfold cache_ok.
  destruct i; cbn [write_nts_]; run_write_nts; split_ifs;
    intros [= <- <-]; cbn; intros (H1 & H2 & H3 & H4); repeat split;
    auto using keys_increasing_assign, map_assign_forall.
Qed.

End Caches.

Lemma cache_ok_staged : cache_ok staged.
Proof.
  unfold cache_ok. vm_compute.
  split; [exact I|]. split; [exact I|].
  split; repeat constructor.
Qed.

(** On the build [c0] the codec leaves [schema1] its id. *)
Lemma write_nts_caches_item_under_its_id_witness :
  map_find (schema_id (added_schema c0 just_enabled schema1))
    (schemas_ (run (write_nts_ c0 codec_ok (ISchema schema1)) just_enabled)) =
    Some (added_schema c0 just_enabled schema1) /\
  (forall k, k <> schema_id (added_schema c0 just_enabled schema1) ->
     map_find k (schemas_ (run (write_nts_ c0 codec_ok (ISchema schema1)) just_enabled)) =
     map_find k (schemas_ just_enabled)) /\
  channels_ (run (write_nts_ c0 codec_ok (ISchema schema1)) just_enabled) =
    channels_ just_enabled /\
  added_schema c0 just_enabled schema1 =
    mkSchema (schema_id (added_schema c0 just_enabled schema1))
      (schema_name schema1) (schema_encoding schema1) (schema_data schema1) /\
  schema_id (added_schema c0 just_enabled schema1) < two16.
Proof.
  apply (@write_nts_caches_item_under_its_id c0 codec_ok (ISchema schema1)
           just_enabled (run (write_nts_ c0 codec_ok (ISchema schema1)) just_enabled)).
  vm_compute. reflexivity.
Defined.

Lemma write_nts_keeps_caches_keyed_by_id_witness :
  cache_ok (run (write_nts_ c0 codec_ok (ISchema (mkSchema 0 "U" "idl" []))) staged).
Proof.
  apply (@write_nts_keeps_caches_keyed_by_id c0 codec_ok
           (ISchema (mkSchema 0 "U" "idl" [])) staged (Ok tt)
           (run (write_nts_ c0 codec_ok (ISchema (mkSchema 0 "U" "idl" []))) staged)).
  - vm_compute. reflexivity.
  - exact cache_ok_staged.
Defined.

(** ** Closing, and the budget of a single file *)

Definition is_file_request (e : Event) : bool :=
  match e with EvNewFile _ | EvOpen _ _ => true | _ => false end.

Definition touches_attachment (e : Event) : bool :=
  match e with
  | EvWriteAttachment _ _ | EvReserveAttachment _ _ => true
  | _ => false
  end.

Lemma filter_through_landmarks (p : Event -> bool) :
  (forall e, p e = true -> is_landmark e = true) ->
  forall l, filter p l = filter p (landmarks l).
Proof.
  intros Hp. induction l as [|e l IH]; [reflexivity|].
  unfold landmarks in *. cbn [filter].
  destruct (is_landmark e) eqn:El; cbn [filter].
  - rewrite IH. reflexivity.
  - destruct (p e) eqn:Ep; [|exact IH].
    apply Hp in Ep. congruence.
Qed.

Section Closing.

Variable c : Constants.
Variable codec_status : list Event -> bool.

(** After [close_current_file_nts_] the file tracker has no current file and
    the size tracker is back at the file overhead. *)
Lemma close_leaves_no_file w :
  FileTracker.current_file
    (file_tracker_ (snd (close_current_file_nts_ c codec_status w))) = None /\
  SizeTracker.potential
    (size_tracker_ (snd (close_current_file_nts_ c codec_status w))) =
    MCAP_FILE_OVERHEAD c /\
  SizeTracker.written
    (size_tracker_ (snd (close_current_file_nts_ c codec_status w))) =
    MCAP_FILE_OVERHEAD c.
Proof.
  destruct w as [cfg ft rt en st pl sc ch lam lg].
  destruct st as [cl mg po wr pa]. destruct ft as [cf cur nx].
  unfold close_current_file_nts_, write_attachment_nts_.
  cbn [write_nts_].
  unfold write_nts_attachment, item_written, record_potential_size,
    set_current_file_size, emit, tracker_do, codec, bind, modify, get, ret.
  cbn.
  destruct rt; [destruct pl as [p|]|]; cbn;
    try destruct (codec_status lg); cbn; repeat split.
Qed.

Lemma closing_makes_no_file_request w :
  filter is_file_request (closing_landmarks codec_status w) = [].
Proof.
  unfold closing_landmarks. destruct (staged_attachment w); reflexivity.
Qed.

(** When the configuration allows a single file ([max_file_size] equal to
    [max_size]), a reservation overflow never leads to another file:
    [on_mcap_full_nts_] closes the current file, leaves the writer disabled
    with no file open, throws DiskFull, and has neither asked the file
    tracker for a file nor opened the codec. *)
Theorem single_file_budget_rollover_is_disk_full n w :
  max_file_size (configuration_ w) = max_size (configuration_ w) ->
  exists w',
    on_mcap_full_nts_ c codec_status n w = (Raise FullDiskException, w') /\
    enabled_ w' = false /\
    FileTracker.current_file (file_tracker_ w') = None /\
    landmarks (log w') = landmarks (log w) ++ closing_landmarks codec_status w /\
    filter is_file_request (log w') = filter is_file_request (log w).
Proof.
  intro Heq. rewrite on_mcap_full_nts_eq. cbv zeta.
  destruct (close_current_file_nts_ok c codec_status w) as (wc & Ec & Sc & _).
  pose proof (keeps_obs_close c codec_status w) as Ko.
  pose proof (close_leaves_no_file w) as (Hn & _ & _).
  rewrite Ec in *. cbn [snd] in *.
  unfold obs in Ko. injection Ko as _ _ _ Hcfg _ _.
  change (configuration_ (set_enabled false wc)) with (configuration_ wc).
  rewrite Hcfg, Heq, N.eqb_refl.
  eexists. split; [reflexivity|]. split; [reflexivity|].
  split; [exact Hn|]. split; [exact Sc|].
  change (log (set_enabled false wc)) with (log wc).
  assert (Hp : forall e, is_file_request e = true -> is_landmark e = true)
    by (intros []; cbn; congruence).
  rewrite (filter_through_landmarks _ Hp (log wc)),
          (filter_through_landmarks _ Hp (log w)).
  unfold step_adds in Sc. rewrite Sc, filter_app, closing_makes_no_file_request.
  apply app_nil_r.
Qed.

End Closing.

Lemma single_file_budget_rollover_is_disk_full_witness :
  exists w',
    on_mcap_full_nts_ c0 codec_ok 70 one_file = (Raise FullDiskException, w') /\
    enabled_ w' = false /\
    FileTracker.current_file (file_tracker_ w') = None /\
    landmarks (log w') = landmarks (log one_file) ++ closing_landmarks codec_ok one_file /\
    filter is_file_request (log w') = filter is_file_request (log one_file).
Proof.
  apply (@single_file_budget_rollover_is_disk_full c0 codec_ok 70 one_file).
  vm_compute. reflexivity.
Defined.

(** ** Exceptions that leave the member functions *)

(** Every exception [m] can throw satisfies [P]. *)
Definition throws_only {A} (P : Exn -> Prop) (m : W A) : Prop :=
  forall w e w', m w = (Raise e, w') -> P e.

Definition file_full (e : Exn) : Prop := exists n, e = FullFileException n.

(** What [open_new_file_nts_] can throw. *)
Definition open_failure (e : Exn) : Prop :=
  e = FullDiskException \/ e = InitializationException \/ file_full e.

(** What can leave [enable] and [update_dynamic_types]: the initialization
    error of the codec, and FileFull unless the handler for DiskFull catches
    it, which it does when [FullFileException] is derived from
    [FullDiskException]. *)
Definition escaping (c : Constants) (e : Exn) : Prop :=
  e = InitializationException \/
  (file_full e /\ full_file_is_full_disk c = false).

Section Throws.

Variable c : Constants.
Variable codec_status : list Event -> bool.

Lemma throws_only_bind A B P (m : W A) (k : A -> W B) :
  throws_only P m -> (forall a, throws_only P (k a)) -> throws_only P (bind m k).
Proof.
  intros Hm Hk w e w'. unfold bind.
  destruct (m w) as [[a|e0] w1] eqn:E.
  - apply Hk.
  - intros [= <- <-]. exact (Hm _ _ _ E).
Qed.

Lemma throws_only_for_each A P (body : A -> W unit) l :
  (forall a, throws_only P (body a)) -> throws_only P (for_each body l).
Proof.
  intro Hb. induction l as [|x l IH]; cbn [for_each].
  - intros w e w'. discriminate.
  - apply throws_only_bind; [apply Hb | intros _; exact IH].
Qed.

Lemma throws_only_rounds X P (step : X -> W (option X)) n :
  (forall x, throws_only P (step x)) -> forall x, throws_only P (rounds n step x).
Proof.
  intro Hs. induction n as [|n IH]; intro x; cbn [rounds].
  - apply Hs.
  - apply throws_only_bind; [apply IH|].
    intros [x'|]; [apply IH | intros w e w'; discriminate].
Qed.

Lemma throws_only_for_each_in_map V P (m : McapWriter -> list (N * V)) body :
  (forall k v, throws_only P (body k v)) ->
  throws_only P (for_each_in_map m body).
Proof.
  intro Hb. rewrite for_each_in_map_eq.
  apply throws_only_bind; [|intros _ w e w'; discriminate].
  apply throws_only_rounds. intro k. unfold round.
  apply throws_only_bind; [intros w e w'; discriminate|]. intro s.
  destruct (map_lower_bound k (m s)) as [[k' v]|];
    [|intros w e w'; discriminate].
  apply throws_only_bind; [apply Hb | intros _ w e w'; discriminate].
Qed.

Lemma throws_only_returns A P (m : W A) : returns m -> throws_only P m.
Proof.
  intros H w e w' E. destruct (H w) as [a Ha]. rewrite E in Ha. discriminate.
Qed.

Lemma throws_only_weaken A (P Q : Exn -> Prop) (m : W A) :
  (forall e, P e -> Q e) -> throws_only P m -> throws_only Q m.
Proof. intros H Hm w e w' E. apply H. exact (Hm _ _ _ E). Qed.

Lemma returns_plain A (m : W A) :
  (forall w, exists a w', m w = (Ok a, w')) -> returns m.
Proof. intros H w. destruct (H w) as (a & w' & E). exists a. rewrite E. reflexivity. Qed.

Ltac run_throws :=
  unfold write_nts_attachment, write_nts_channel, write_nts_message,
    write_nts_metadata, write_nts_schema, write_nts_channel_at,
    write_nts_schema_at, item_to_write, item_written,
    record_potential_size, set_current_file_size, emit, tracker_call,
    tracker_do, codec, bind, modify, get, ret, SizeTracker.to_write;
  cbn;
  repeat match goal with
         | |- context [if ?b then _ else _] => destruct b; cbn
         end;
  intros [= <- _]; eexists; reflexivity.

Lemma write_nts_schema_at_throws_file_full home s :
  throws_only file_full (write_nts_schema_at c home s).
Proof.
  intros w e w'.
  destruct w as [cfg ft rt en st pl sc ch lam lg].
  destruct st as [cl mg po wr pa]. destruct home; run_throws.
Qed.

Lemma write_nts_channel_at_throws_file_full home ch :
  throws_only file_full (write_nts_channel_at c home ch).
Proof.
  intros w e w'.
  destruct w as [cfg ft rt en st pl sc chs lam lg].
  destruct st as [cl mg po wr pa]. destruct home; run_throws.
Qed.

Lemma write_nts_throws_file_full i :
  throws_only file_full (write_nts_ c codec_status i).
Proof.
  intros w e w'.
  destruct w as [cfg ft rt en st pl sc ch lam lg].
  destruct st as [cl mg po wr pa].
  destruct i; cbn [write_nts_]; run_throws.
Qed.

Lemma attachment_to_write_throws_file_full n r :
  throws_only file_full (attachment_to_write n r).
Proof.
  intros w e w'. rewrite attachment_to_write_eq. cbv zeta.
  unfold SizeTracker.attachment_to_write.
  destruct (_ <? _); intros [= <- _]. eexists; reflexivity.
Qed.

Lemma returns_record_potential : returns record_potential_size.
Proof.
  intro w. destruct (record_potential_size_ok w) as (w' & E & _).
  exists tt. rewrite E. reflexivity.
Qed.

Lemma file_preamble_throws_file_full :
  throws_only file_full (file_preamble c codec_status).
Proof.
  unfold file_preamble, reserve_staged_attachment, write_metadata_nts_,
    write_schemas_nts_, write_channels_nts_.
  apply throws_only_bind; [apply write_nts_throws_file_full|intros _].
  apply throws_only_bind;
    [apply throws_only_for_each_in_map; intros;
     apply write_nts_schema_at_throws_file_full|intros _].
  apply throws_only_bind;
    [apply throws_only_for_each_in_map; intros;
     apply write_nts_channel_at_throws_file_full|intros _].
  apply throws_only_bind; [apply throws_only_returns, returns_get|intro w0].
  apply throws_only_bind;
    [|intros _; apply throws_only_returns, returns_record_potential].
  destruct (dynamic_types_payload_ w0); [destruct (record_types_ w0)|];
    first [apply attachment_to_write_throws_file_full
          | apply throws_only_returns, returns_ret].
Qed.

Lemma open_new_file_throws m :
  throws_only open_failure (open_new_file_nts_ c codec_status m).
Proof.
  intros w e w'. rewrite open_new_file_nts_eq.
  unfold FileTracker.new_file.
  destruct (_ <? _); [intros [= <- _]; left; reflexivity|].
  destruct (_ <? _); [intros [= <- _]; left; reflexivity|].
  cbn [fst snd]. destruct (codec_status _).
  - intro H. right. right. eapply file_preamble_throws_file_full. exact H.
  - intros [= <- _]. right. left. reflexivity.
Qed.

Lemma on_mcap_full_throws n :
  throws_only open_failure (on_mcap_full_nts_ c codec_status n).
Proof.
  intros w e w'. rewrite on_mcap_full_nts_eq. cbv zeta.
  destruct (_ =? _); [intros [= <- _]; left; reflexivity|].
  destruct (open_new_file_nts_ _ _ _ _) as [[[]|e0] wo] eqn:E; [discriminate|].
  intros [= <- _]. eapply open_new_file_throws. exact E.
Qed.

(** The staged payload is left alone by a rollover, whatever its outcome. *)
Lemma on_mcap_full_keeps_payload n :
  keeps dynamic_types_payload_ (on_mcap_full_nts_ c codec_status n).
Proof.
  intros w. rewrite on_mcap_full_nts_eq. cbv zeta.
  pose proof (keeps_obs_close c codec_status w) as Kc.
  set (wc := snd (close_current_file_nts_ c codec_status w)) in *.
  unfold obs in Kc. injection Kc as _ _ _ _ Hp _.
  destruct (_ =? _); [exact Hp|].
  pose proof (keeps_obs_open_new_file c codec_status
     (add64 (SizeTracker.get_min_mcap_size c
               (size_tracker_ (set_enabled false wc))) n)
     (set_enabled false wc)) as Ko.
  destruct (open_new_file_nts_ _ _ _ _) as [[[]|e0] wo]; cbn [snd] in *;
    unfold obs in Ko; injection Ko as _ _ _ _ Hq _;
    change (dynamic_types_payload_ (set_enabled true wo))
      with (dynamic_types_payload_ wo);
    change (dynamic_types_payload_ (set_enabled false wc))
      with (dynamic_types_payload_ wc) in Hq;
    congruence.
Qed.

End Throws.

Section Escapes.

Variable c : Constants.
Variable codec_status : list Event -> bool.

(** [enable()] never lets a FullDiskException out.  The exceptions that
    leave it are the InitializationException of a failed codec open and,
    when [FullFileException] is not derived from [FullDiskException], the
    FileFull of a record that did not fit on the new file; the writer is
    then left not enabled.  When [FullFileException] is derived from
    [FullDiskException], that FileFull is handled as DiskFull:
    [on_disk_full_] runs and [enable()] returns with the writer enabled. *)
Theorem enable_lets_no_disk_full_escape w :
  (forall e w',
     enable c codec_status w = (Raise e, w') ->
     escaping c e /\ enabled_ w = false /\ enabled_ w' = false) /\
  (forall n wo,
     enabled_ w = false ->
     full_file_is_full_disk c = true ->
     open_new_file_nts_ c codec_status (MIN_MCAP_SIZE c) w =
       (Raise (FullFileException n), wo) ->
     enable c codec_status w = (Ok tt, set_enabled true (notified wo))).
Proof.
  split.
  - intros e w'. unfold enable. unfold bind at 1. cbn [get].
    destruct (enabled_ w) eqn:He; [discriminate|].
    unfold bind, try_catch.
    pose proof (keeps_obs_open_new_file c codec_status (MIN_MCAP_SIZE c) w) as Ko.
    destruct (open_new_file_nts_ c codec_status (MIN_MCAP_SIZE c) w)
      as [[[]|e0] wo] eqn:Eo; [discriminate|].
    assert (Hk : open_failure e0) by (eapply open_new_file_throws; exact Eo).
    cbn [snd] in Ko. unfold obs in Ko. injection Ko as Hen _ _ _ _ _.
    rewrite caught_full_disk.
    destruct e0.
    + destruct (full_file_is_full_disk c) eqn:Hd; [discriminate|].
      intros [= <- <-].
      split; [right; split; [eexists; reflexivity | exact Hd]|].
      split; congruence.
    + discriminate.
    + intros [= <- <-]. exfalso.
      destruct Hk as [Hk|[Hk|[n Hk]]]; discriminate Hk.
    + intros [= <- <-]. split; [left; reflexivity|]. split; congruence.
  - intros n wo He Hd Ho. unfold enable. unfold bind at 1. cbn [get].
    rewrite He. unfold bind, try_catch. rewrite Ho, caught_full_disk, Hd.
    reflexivity.
Qed.

(** The exceptions that leave [update_dynamic_types] are the same, never a
    FullDiskException; and a call left by an exception has not replaced
    the staged payload. *)
Theorem update_dynamic_types_escape_keeps_payload p w e w' :
  update_dynamic_types c codec_status p w = (Raise e, w') ->
  escaping c e /\ dynamic_types_payload_ w' = dynamic_types_payload_ w.
Proof.
  intro H.
  pose proof (keeps_payload_of_obs
                (keeps_obs_update_dynamic_types_payload c p) w) as K1.
  destruct (update_dynamic_types_payload c p w) as [[[]|e1] w1] eqn:E1.
  - unfold update_dynamic_types in H.
    rewrite update_dynamic_types_finish in H.
    unfold try_catch in H. rewrite E1 in H. discriminate.
  - pose proof (@update_dynamic_types_payload_raise c p w e1 w1 E1) as ->.
    rewrite (@update_dynamic_types_refused c codec_status p w _ w1 E1) in H.
    cbn [snd] in K1.
    pose proof (on_mcap_full_keeps_payload c codec_status
                  (attachment_size c (payload_length p)) w1) as K2.
    destruct (on_mcap_full_nts_ c codec_status _ w1) as [[[]|e2] w2] eqn:E2;
      cbn [snd] in K2.
    + pose proof (keeps_payload_of_obs
                    (keeps_obs_update_dynamic_types_payload c p) w2) as K3.
      destruct (update_dynamic_types_payload c p w2) as [[[]|e3] w3] eqn:E3;
        [discriminate|].
      cbn [snd] in K3.
      pose proof (@update_dynamic_types_payload_raise c p w2 e3 w3 E3) as ->.
      destruct (full_file_is_full_disk c) eqn:Hd; [discriminate|].
      injection H as <- <-.
      split; [right; split; [eexists; reflexivity | exact Hd] | congruence].
    + assert (Hk : open_failure e2) by (eapply on_mcap_full_throws; exact E2).
      destruct e2.
      * destruct (full_file_is_full_disk c) eqn:Hd; [discriminate|].
        injection H as <- <-.
        split; [right; split; [eexists; reflexivity | exact Hd] | congruence].
      * discriminate.
      * exfalso. destruct Hk as [Hk|[Hk|[n Hk]]]; discriminate Hk.
      * injection H as <- <-. split; [left; reflexivity | congruence].
Qed.

(** [disable()] never throws and leaves the writer not enabled; on an
    enabled writer it ends with the codec closed and no current file in the
    file tracker; and from then on every Message handed to [write_nts_] is
    dropped, the writer staying exactly as it is. *)
Theorem disable_closes_file_and_later_messages_are_dropped w :
  exists w1,
    disable c codec_status w = (Ok tt, w1) /\
    enabled_ w1 = false /\
    (enabled_ w = true ->
     FileTracker.current_file (file_tracker_ w1) = None /\
     exists l, landmarks (log w1) = l ++ [EvClose]) /\
    (forall m, write_nts_ c codec_status (IMessage m) w1 = (Ok tt, w1)).
Proof.
  rewrite disable_eq. destruct (enabled_ w) eqn:He.
  - eexists. split; [reflexivity|]. split; [reflexivity|]. split.
    + intros _.
      destruct (close_current_file_nts_ok c codec_status w) as (wc & Ec & Sc & _).
      pose proof (close_leaves_no_file c codec_status w) as (Hn & _ & _).
      rewrite Ec in *. cbn [snd] in *. split; [exact Hn|].
      change (log (set_enabled false (set_channels [] wc))) with (log wc).
      unfold step_adds, closing_landmarks in Sc. rewrite Sc, app_assoc.
      eexists. reflexivity.
    + intro m. apply (write_message_disabled c codec_status). reflexivity.
  - exists w. split; [reflexivity|]. split; [exact He|]. split; [congruence|].
    intro m. apply (write_message_disabled c codec_status). exact He.
Qed.

End Escapes.

(** A codec whose [open] and [write] always fail. *)
Definition codec_never (h : list Event) : bool := false.

(** A build whose schema records take 30 bytes, and the same build with
    [FullFileException] derived from [FullDiskException]. *)
Definition c1 : Constants :=
  mkConstants 20 10 (fun n => n) (fun n => n) (fun _ => 10) (fun _ _ _ => 30)
    (fun _ _ => 3) "1.0" "abc" false
    (fun _ s => schema_id s) (fun _ ch => channel_id ch).

Definition c1_derived : Constants :=
  mkConstants 20 10 (fun n => n) (fun n => n) (fun _ => 10) (fun _ _ _ => 30)
    (fun _ _ => 3) "1.0" "abc" true
    (fun _ s => schema_id s) (fun _ ch => channel_id ch).

(** On the build [c1_derived]: a writer with a cached schema whose 60-byte
    payload met FileFull twice in [update_dynamic_types] and was staged all
    the same, and which was then disabled.  The preamble of its next file
    does not fit 100 bytes. *)
Definition overstaged : McapWriter :=
  run (disable c1_derived codec_ok)
    (run (update_dynamic_types c1_derived codec_ok (types 60))
       (run (write_nts_ c1_derived codec_ok (ISchema schema1))
          (run (enable c1_derived codec_ok)
             (run (set_on_disk_full_callback true)
                (McapWriter_new c1_derived (mkSettings 100 1000 0)
                   FileTracker.create true))))).

Lemma enable_lets_no_disk_full_escape_witness :
  (escaping c0 InitializationException /\
   enabled_ (McapWriter_new c0 (mkSettings 100 1000 0) FileTracker.create true) = false /\
   enabled_ (run (enable c0 codec_never)
               (McapWriter_new c0 (mkSettings 100 1000 0) FileTracker.create true)) = false) /\
  enable c1_derived codec_ok overstaged =
    (Ok tt,
     set_enabled true
       (notified (run (open_new_file_nts_ c1_derived codec_ok
                         (MIN_MCAP_SIZE c1_derived)) overstaged))).
Proof.
  split.
  - apply (proj1 (@enable_lets_no_disk_full_escape c0 codec_never
             (McapWriter_new c0 (mkSettings 100 1000 0) FileTracker.create true))
             InitializationException
             (run (enable c0 codec_never)
                (McapWriter_new c0 (mkSettings 100 1000 0) FileTracker.create true))).
    vm_compute. reflexivity.
  - apply (proj2 (@enable_lets_no_disk_full_escape c1_derived codec_ok overstaged)
             60).
    + vm_compute. reflexivity.
    + reflexivity.
    + vm_compute. reflexivity.
Defined.

(** A 100-byte file holding a schema, a channel and a staged 20-byte
    payload: 73 potential bytes. *)
Definition crowded : McapWriter :=
  run (update_dynamic_types c1 codec_ok (types 20))
    (run (write_nts_ c1 codec_ok (IChannel channel1))
       (run (write_nts_ c1 codec_ok (ISchema schema1))
          (run (enable c1 codec_ok)
             (McapWriter_new c1 (mkSettings 100 1000 0) FileTracker.create true)))).

(** A 50-byte payload is refused, the file rolls over, and the retry is
    refused on the new file as well. *)
Lemma update_dynamic_types_escape_keeps_payload_witness :
  escaping c1 (FullFileException 50) /\
  dynamic_types_payload_ (run (update_dynamic_types c1 codec_ok (types 50)) crowded) =
    dynamic_types_payload_ crowded.
Proof.
  apply (@update_dynamic_types_escape_keeps_payload c1 codec_ok (types 50) crowded
           (FullFileException 50)
           (run (update_dynamic_types c1 codec_ok (types 50)) crowded)).
  vm_compute. reflexivity.
Defined.

Lemma disable_closes_file_and_later_messages_are_dropped_witness :
  exists w1,
    disable c0 codec_ok staged = (Ok tt, w1) /\
    enabled_ w1 = false /\
    (enabled_ staged = true ->
     FileTracker.current_file (file_tracker_ w1) = None /\
     exists l, landmarks (log w1) = l ++ [EvClose]) /\
    (forall m, write_nts_ c0 codec_ok (IMessage m) w1 = (Ok tt, w1)).
Proof.
  exact (disable_closes_file_and_later_messages_are_dropped c0 codec_ok staged).
Defined.

(** ** Opening a file that cannot be set up *)

Section OpenFailures.

Variable c : Constants.
Variable codec_status : list Event -> bool.

(** [open_new_file_nts_] reports both refusals of the file tracker, a
    minimum size above [max_file_size] (its [std::invalid_argument]) and an
    exhausted budget, as DiskFull; the codec is then not opened and nothing
    but the log has changed.  When the file tracker grants the file but the
    codec fails to open it, InitializationException is thrown: the file
    tracker keeps the new, empty current file, and the size tracker and the
    caches are untouched, no record having been written. *)
Theorem open_new_file_nts_failures_leave_trackers_untouched m w :
  (max_file_size (configuration_ w) < m \/
   max_size (configuration_ w) <
     FileTracker.get_total_size (file_tracker_ w) + m ->
   open_new_file_nts_ c codec_status m w =
     (Raise FullDiskException, set_log (log w ++ [EvNewFile m]) w)) /\
  (forall ft1,
     FileTracker.new_file (configuration_ w) m (file_tracker_ w) = (Ok tt, ft1) ->
     codec_status (log w ++ [EvNewFile m]) = false ->
     exists w',
       open_new_file_nts_ c codec_status m w = (Raise InitializationException, w') /\
       size_tracker_ w' = size_tracker_ w /\
       caches w' = caches w /\
       file_tracker_ w' = ft1 /\
       FileTracker.current_file ft1 =
         Some (FileTracker.next_name (file_tracker_ w), 0) /\
       log w' = log w ++ [EvNewFile m;
                          EvOpen (FileTracker.next_name (file_tracker_ w)) false]).
Proof.
  split.
  - intro H. rewrite open_new_file_nts_eq. unfold FileTracker.new_file.
    destruct (N.ltb_spec (max_file_size (configuration_ w)) m).
    + destruct w; reflexivity.
    + destruct (N.ltb_spec (max_size (configuration_ w))
                  (FileTracker.get_total_size (file_tracker_ w) + m)).
      * destruct w; reflexivity.
      * exfalso. destruct H; lia.
  - intros ft1 Hn Hc. rewrite open_new_file_nts_eq, Hn, Hc.
    eexists. split; [reflexivity|].
    pose proof (@file_tracker_new_file_ok _ _ _ _ Hn) as (_ & _ & _ & Hf).
    assert (Hcur : FileTracker.current_file ft1 =
                   Some (FileTracker.next_name (file_tracker_ w), 0)).
    { unfold FileTracker.new_file in Hn.
      destruct (_ <? _); [discriminate|]. destruct (_ <? _); [discriminate|].
      injection Hn as <-. reflexivity. }
    destruct w as [cfg ft rt en st pl sc ch lam lg]. cbn in *.
    rewrite Hf, <- app_assoc. repeat split. exact Hcur.
Qed.

End OpenFailures.

Lemma open_new_file_nts_failures_leave_trackers_untouched_witness :
  open_new_file_nts_ c0 codec_never 150 staged =
    (Raise FullDiskException, set_log (log staged ++ [EvNewFile 150]) staged) /\
  exists w',
    open_new_file_nts_ c0 codec_never 20 staged_disabled =
      (Raise InitializationException, w') /\
    size_tracker_ w' = size_tracker_ staged_disabled /\
    caches w' = caches staged_disabled /\
    file_tracker_ w' =
      snd (FileTracker.new_file (configuration_ staged_disabled) 20
             (file_tracker_ staged_disabled)) /\
    FileTracker.current_file
      (snd (FileTracker.new_file (configuration_ staged_disabled) 20
              (file_tracker_ staged_disabled))) =
      Some (FileTracker.next_name (file_tracker_ staged_disabled), 0) /\
    log w' = log staged_disabled ++
             [EvNewFile 20;
              EvOpen (FileTracker.next_name (file_tracker_ staged_disabled)) false].
Proof.
  split.
  - apply (proj1 (open_new_file_nts_failures_leave_trackers_untouched
                    c0 codec_never 150 staged)).
    left. vm_compute. reflexivity.
  - apply (proj2 (open_new_file_nts_failures_leave_trackers_untouched
                    c0 codec_never 20 staged_disabled)).
    + vm_compute. reflexivity.
    + reflexivity.
Defined.

(** ** A writer that does not record types *)

Section NoTypes.

Variable c : Constants.
Variable codec_status : list Event -> bool.

Lemma filter_map_none A (p : Event -> bool) (f : A -> Event) l :
  (forall x, p (f x) = false) -> filter p (map f l) = [].
Proof.
  intro H. induction l as [|x l IH]; cbn; [reflexivity|].
  rewrite H. exact IH.
Qed.

Lemma touches_attachment_is_landmark e :
  touches_attachment e = true -> is_landmark e = true.
Proof. destruct e; cbn; congruence. Qed.

(** Whether types are recorded, and what was done about attachments. *)
Definition attachment_obs (w : McapWriter) : bool * list Event :=
  (record_types_ w, filter touches_attachment (log w)).

Lemma attachment_obs_log e w :
  negb (touches_attachment e) = true ->
  attachment_obs (set_log (log w ++ [e]) w) = attachment_obs w.
Proof.
  intro H. destruct w. unfold attachment_obs. cbn. rewrite filter_app. cbn.
  destruct (touches_attachment e); [discriminate|].
  rewrite app_nil_r. reflexivity.
Qed.

Lemma attachment_obs_size_tracker s w :
  attachment_obs (set_size_tracker s w) = attachment_obs w.
Proof. destruct w; reflexivity. Qed.

Lemma attachment_obs_file_tracker t w :
  attachment_obs (set_file_tracker t w) = attachment_obs w.
Proof. destruct w; reflexivity. Qed.

Lemma attachment_obs_books n :
  negb (touches_attachment (EvReserve n)) = true /\
  negb (touches_attachment (EvCommit n)) = true /\
  negb (touches_attachment (EvSetFileSize n)) = true.
Proof. repeat split. Qed.

(** [m] does nothing about attachments when types are not recorded. *)
Definition untyped_quiet {A} (m : W A) : Prop :=
  forall w, record_types_ w = false ->
            attachment_obs (snd (m w)) = attachment_obs w.

Lemma untyped_quiet_bind A B (m : W A) (k : A -> W B) :
  keeps attachment_obs m -> (forall a, untyped_quiet (k a)) ->
  untyped_quiet (bind m k).
Proof.
  intros Hm Hk w Hr. specialize (Hm w). unfold bind.
  destruct (m w) as [[a|e] w1]; cbn [snd] in *; [|exact Hm].
  rewrite Hk; [exact Hm|].
  pose proof (f_equal fst Hm) as E. cbn in E. congruence.
Qed.

Lemma untyped_quiet_file_preamble :
  untyped_quiet (file_preamble c codec_status).
Proof.
  unfold file_preamble, write_metadata_nts_. cbn [write_nts_].
  apply untyped_quiet_bind;
    [exact (@untouched_write_nts_metadata c codec_status _ attachment_obs
              (fun e => negb (touches_attachment e))
              attachment_obs_log attachment_obs_size_tracker
              attachment_obs_file_tracker attachment_obs_books
              (version_metadata c) (fun b => eq_refl))|intros _].
  apply untyped_quiet_bind;
    [exact (@untouched_write_schemas c _ attachment_obs
              (fun e => negb (touches_attachment e))
              attachment_obs_log attachment_obs_size_tracker
              attachment_obs_file_tracker attachment_obs_books
              (fun s => eq_refl) (fun m w => eq_refl))
    |intros _].
  apply untyped_quiet_bind;
    [exact (@untouched_write_channels c _ attachment_obs
              (fun e => negb (touches_attachment e))
              attachment_obs_log attachment_obs_size_tracker
              attachment_obs_file_tracker attachment_obs_books
              (fun s => eq_refl) (fun m w => eq_refl))
    |intros _].
  intros w Hr. unfold reserve_staged_attachment. unfold bind at 1. cbn [get].
  rewrite Hr.
  assert (E : forall k : W unit,
            bind match dynamic_types_payload_ w with
                 | Some _ => ret tt
                 | None => ret tt
                 end (fun _ => k) w = k w)
    by (intro k; destruct (dynamic_types_payload_ w); reflexivity).
  rewrite E.
  exact (@untouched_record_potential _ attachment_obs
           (fun e => negb (touches_attachment e))
           attachment_obs_log attachment_obs_file_tracker
           attachment_obs_books w).
Qed.

(** When types are not recorded, opening a file does nothing about
    attachments, whether it returns or throws. *)
Lemma open_without_types m w :
  record_types_ w = false ->
  attachment_obs (snd (open_new_file_nts_ c codec_status m w)) =
    attachment_obs w.
Proof.
  intro Hr. rewrite open_new_file_nts_eq.
  destruct (FileTracker.new_file _ m _) as [[[]|e] ft1].
  - destruct (codec_status (log w ++ [EvNewFile m])).
    + rewrite untyped_quiet_file_preamble.
      * destruct w. unfold opened, attachment_obs. cbn.
        rewrite !filter_app. cbn. rewrite !app_nil_r. reflexivity.
      * destruct w. exact Hr.
    + destruct w. unfold attachment_obs. cbn.
      rewrite !filter_app. cbn. rewrite !app_nil_r. reflexivity.
  - destruct w. unfold attachment_obs. cbn.
    rewrite !filter_app. cbn. rewrite !app_nil_r. reflexivity.
Qed.

(** With [record_types] false the dynamic-types attachment stays out of the
    files even when a payload is staged: neither [disable()] nor a rollover
    that goes through hands an attachment to the codec or reserves room for
    one on the new file. *)
Theorem without_record_types_files_get_no_attachment w :
  record_types_ w = false ->
  filter touches_attachment (log (snd (disable c codec_status w))) =
    filter touches_attachment (log w) /\
  (forall n w',
     max_size (configuration_ w) < two64 ->
     on_mcap_full_nts_ c codec_status n w = (Ok tt, w') ->
     filter touches_attachment (log w') = filter touches_attachment (log w)).
Proof.
  intro Hr.
  assert (Hcl : closing_landmarks codec_status w = [EvClose]).
  { unfold closing_landmarks, staged_attachment. rewrite Hr. reflexivity. }
  assert (Har : attachment_reservation c w = []).
  { unfold attachment_reservation, staged_attachment. rewrite Hr. reflexivity. }
  split.
  - rewrite disable_eq. destruct (enabled_ w); [|reflexivity]. cbn [snd].
    destruct (close_current_file_nts_ok c codec_status w) as (wc & Ec & Sc & _).
    rewrite Ec. cbn [snd].
    change (log (set_enabled false (set_channels [] wc))) with (log wc).
    rewrite (filter_through_landmarks _ touches_attachment_is_landmark (log wc)),
            (filter_through_landmarks _ touches_attachment_is_landmark (log w)).
    unfold step_adds in Sc. rewrite Sc, Hcl, filter_app. apply app_nil_r.
  - intros n w' _ H.
    rewrite on_mcap_full_nts_eq in H. cbv zeta in H.
    destruct (close_current_file_nts_ok c codec_status w) as (wc & Ec & Sc & _).
    pose proof (keeps_obs_close c codec_status w) as Ko.
    rewrite Ec in *. cbn [snd] in *.
    unfold obs in Ko. injection Ko as _ _ Hrt _ _ _.
    assert (Hc : filter touches_attachment (log wc) =
                 filter touches_attachment (log w)).
    { rewrite (filter_through_landmarks _ touches_attachment_is_landmark (log wc)),
              (filter_through_landmarks _ touches_attachment_is_landmark (log w)).
      unfold step_adds in Sc. rewrite Sc, Hcl, filter_app. apply app_nil_r. }
    destruct (_ =? _); [discriminate|].
    pose proof (open_without_types
                  (add64 (SizeTracker.get_min_mcap_size c
                            (size_tracker_ (set_enabled false wc))) n)
                  (set_enabled false wc)) as K.
    destruct (open_new_file_nts_ _ _ _ _) as [[[]|e] wo]; [|discriminate].
    injection H as <-. cbn [snd] in K.
    change (log (set_enabled true wo)) with (log wo).
    rewrite <- Hc.
    refine (f_equal snd (K _)).
    change (record_types_ (set_enabled false wc)) with (record_types_ wc).
    congruence.
Qed.

End NoTypes.

(** The writer of the failing budget run after its first three calls: types
    are not recorded and a 10-byte payload is staged. *)
Definition untyped : McapWriter :=
  run (write c0 codec_ok (IMessage (msg 50)))
    (run (update_dynamic_types c0 codec_ok (types 10))
       (run (enable c0 codec_ok)
          (McapWriter_new c0 (mkSettings 100 1000 0) FileTracker.create false))).

Lemma without_record_types_files_get_no_attachment_witness :
  filter touches_attachment (log (snd (disable c0 codec_ok untyped))) =
    filter touches_attachment (log untyped) /\
  filter touches_attachment (log (run (on_mcap_full_nts_ c0 codec_ok 30) untyped)) =
    filter touches_attachment (log untyped).
Proof.
  destruct (@without_record_types_files_get_no_attachment c0 codec_ok untyped)
    as [H1 H2].
  - vm_compute. reflexivity.
  - split; [exact H1|].
    apply (H2 30 (run (on_mcap_full_nts_ c0 codec_ok 30) untyped)).
    + vm_compute. reflexivity.
    + vm_compute. reflexivity.
Defined.

(** ** Writing a record again, and the empty recording *)

Section Again.

Variable c : Constants.
Variable codec_status : list Event -> bool.

(** The writer does not look into its cache before writing: a Schema that
    is cached already is handed to the codec and accounted once more when it
    is written again.  It is stored under the id the codec then gives it;
    when the codec leaves the record as it is, the caches stay as they
    are. *)
Theorem cached_schema_written_again_is_emitted_again s w w' :
  cache_ok w ->
  In (schema_id s, s) (schemas_ w) ->
  write_nts_ c codec_status (ISchema s) w = (Ok tt, w') ->
  landmarks (log w') = landmarks (log w) ++ [EvAddSchema s] /\
  SizeTracker.written (size_tracker_ w') =
    SizeTracker.written (size_tracker_ w) + schema_size c s /\
  channels_ w' = channels_ w /\
  schemas_ w' =
    map_assign (schema_id (added_schema c w s)) (added_schema c w s)
      (schemas_ w) /\
  (added_schema c w s = s -> schemas_ w' = schemas_ w).
Proof.
  intros Hc Hin H. cbn [write_nts_] in H.
  apply write_nts_schema_at_ok in H. destruct H as (S & T & Hch & Hs).
  split; [exact S|].
  split; [unfold tracker_adds in T; rewrite T; reflexivity|].
  split; [exact Hch|]. split; [exact Hs|].
  intro E. rewrite Hs, E.
  apply map_assign_present; [exact (proj1 Hc) | exact Hin].
Qed.

End Again.

Lemma cached_schema_written_again_is_emitted_again_witness :
  landmarks (log (run (write_nts_ c0 codec_ok (ISchema schema1)) staged)) =
    landmarks (log staged) ++ [EvAddSchema schema1] /\
  SizeTracker.written (size_tracker_ (run (write_nts_ c0 codec_ok (ISchema schema1)) staged)) =
    SizeTracker.written (size_tracker_ staged) + schema_size c0 schema1 /\
  channels_ (run (write_nts_ c0 codec_ok (ISchema schema1)) staged) = channels_ staged /\
  schemas_ (run (write_nts_ c0 codec_ok (ISchema schema1)) staged) =
    map_assign (schema_id (added_schema c0 staged schema1))
      (added_schema c0 staged schema1) (schemas_ staged) /\
  (added_schema c0 staged schema1 = schema1 ->
   schemas_ (run (write_nts_ c0 codec_ok (ISchema schema1)) staged) = schemas_ staged).
Proof.
  apply (@cached_schema_written_again_is_emitted_again c0 codec_ok schema1 staged
           (run (write_nts_ c0 codec_ok (ISchema schema1)) staged)).
  - exact cache_ok_staged.
  - vm_compute. left. reflexivity.
  - vm_compute. reflexivity.
Defined.

Section EmptyRecording.

Variable c : Constants.
Variable codec_status : list Event -> bool.

(** A Metadata record that fits and that the codec takes. *)
Lemma write_nts_metadata_fits md w :
  codec_status (log w ++ [EvReserve (metadata_size c md)]) = true ->
  SizeTracker.potential (size_tracker_ w) + metadata_size c md <=
    SizeTracker.ceiling (size_tracker_ w) - SizeTracker.margin (size_tracker_ w) ->
  exists w1,
    write_nts_metadata c codec_status md w = (Ok tt, w1) /\
    caches w1 = caches w /\ obs w1 = obs w /\
    landmarks (log w1) = landmarks (log w) ++ [EvWriteMetadata md true] /\
    SizeTracker.written (size_tracker_ w1) =
      SizeTracker.written (size_tracker_ w) + metadata_size c md /\
    SizeTracker.potential (size_tracker_ w1) =
      SizeTracker.potential (size_tracker_ w) + metadata_size c md /\
    file_tracker_ w1 =
      FileTracker.set_current_file_size
        (SizeTracker.potential (size_tracker_ w) + metadata_size c md)
        (file_tracker_ w).
Proof.
  destruct w as [cfg ft rt en st pl sc ch lam lg].
  destruct st as [cl mg po wr pa]. cbn [log size_tracker_ SizeTracker.potential
    SizeTracker.ceiling SizeTracker.margin].
  intros Hc Hfit.
  unfold write_nts_metadata, item_to_write, item_written, record_potential_size,
    set_current_file_size, emit, tracker_call, tracker_do, codec, bind, modify,
    get, ret, SizeTracker.to_write, SizeTracker.item_written.
  cbn. rewrite (proj2 (N.ltb_ge _ _) Hfit). cbn. rewrite Hc. cbn.
  eexists. split; [reflexivity|]. cbn.
  unfold caches, obs, landmarks, disk_full_events. cbn.
  rewrite !filter_app. cbn. rewrite !app_nil_r.
  split; [reflexivity|]. split; [reflexivity|]. split; [reflexivity|].
  split; [reflexivity|]. split; reflexivity.
Qed.

(** The preamble of a file when nothing is cached and no payload staged. *)
Lemma file_preamble_bare w w1 :
  schemas_ w = [] -> channels_ w = [] -> dynamic_types_payload_ w = None ->
  write_nts_metadata c codec_status (version_metadata c) w = (Ok tt, w1) ->
  caches w1 = caches w -> obs w1 = obs w ->
  file_preamble c codec_status w = record_potential_size w1.
Proof.
  intros Hs Hch Hp Hm Hc Ho.
  unfold caches in Hc. injection Hc as Hc1 Hc2.
  unfold obs in Ho. injection Ho as _ _ _ _ Hp1 _.
  unfold file_preamble, write_metadata_nts_, write_schemas_nts_,
    write_channels_nts_.
  cbn [write_nts_]. unfold bind at 1. rewrite Hm.
  unfold bind at 1.
  rewrite for_each_in_map_empty by (rewrite Hc1; exact Hs).
  unfold bind at 1.
  rewrite for_each_in_map_empty by (rewrite Hc2; exact Hch).
  unfold reserve_staged_attachment. unfold bind at 1. cbn [get].
  rewrite Hp1, Hp. unfold bind. cbn [ret]. reflexivity.
Qed.

(** The first file [enable()] opens on a new writer, when the codec works
    and the version record fits. *)
Lemma enable_new_writer cfg rt :
  (forall h, codec_status h = true) ->
  MIN_MCAP_SIZE c <= max_file_size cfg ->
  MIN_MCAP_SIZE c <= max_size cfg ->
  max_size cfg < two64 ->
  MCAP_FILE_OVERHEAD c + metadata_size c (version_metadata c) <=
    N.min (max_file_size cfg) (max_size cfg) - safety_margin cfg ->
  exists w1,
    enable c codec_status (McapWriter_new c cfg FileTracker.create rt) = (Ok tt, w1) /\
    enabled_ w1 = true /\
    dynamic_types_payload_ w1 = None /\
    SizeTracker.written (size_tracker_ w1) =
      MCAP_FILE_OVERHEAD c + metadata_size c (version_metadata c) /\
    file_tracker_ w1 =
      FileTracker.mk []
        (Some (0, MCAP_FILE_OVERHEAD c + metadata_size c (version_metadata c))) 1 /\
    landmarks (log w1) =
      [EvNewFile (MIN_MCAP_SIZE c); EvOpen 0 true;
       EvInit (N.min (max_file_size cfg) (max_size cfg)) (safety_margin cfg);
       EvWriteMetadata (version_metadata c) true].
Proof.
  intros Hok H1 H2 H3 H4.
  set (W0 := McapWriter_new c cfg FileTracker.create rt).
  set (ft1 := FileTracker.mk [] (Some (0, 0)) 1).
  assert (En : FileTracker.new_file (configuration_ W0) (MIN_MCAP_SIZE c)
                 (file_tracker_ W0) = (Ok tt, ft1)).
  { unfold FileTracker.new_file. cbn.
    rewrite (proj2 (N.ltb_ge _ _) H1), (proj2 (N.ltb_ge _ _) H2). reflexivity. }
  assert (Ec : new_file_ceiling (opened c (MIN_MCAP_SIZE c) ft1 W0) =
               N.min (max_file_size cfg) (max_size cfg)).
  { unfold new_file_ceiling, opened. cbn.
    rewrite sub64_exact by lia. rewrite N.sub_0_r. reflexivity. }
  set (W1 := opened c (MIN_MCAP_SIZE c) ft1 W0) in *.
  assert (Eo : open_new_file_nts_ c codec_status (MIN_MCAP_SIZE c) W0 =
               file_preamble c codec_status W1).
  { rewrite open_new_file_nts_eq, En, Hok. reflexivity. }
  destruct (@write_nts_metadata_fits (version_metadata c) W1) as
    (w2 & Em & Cm & Om & Lm & Wm & Pm & Fm).
  { apply Hok. }
  { change (SizeTracker.ceiling (size_tracker_ W1)) with (new_file_ceiling W1).
    rewrite Ec. exact H4. }
  assert (Ep : file_preamble c codec_status W1 = record_potential_size w2).
  { apply file_preamble_bare; try assumption; reflexivity. }
  destruct (record_potential_size_ok w2) as (w3 & E3 & S3 & C3).
  pose proof (keeps_obs_record_potential w2) as O3. rewrite E3 in O3. cbn [snd] in O3.
  exists (set_enabled true w3). split.
  - unfold enable, bind, get, try_catch.
    change (enabled_ W0) with false. cbn iota beta.
    rewrite Eo, Ep, E3. reflexivity.
  - split; [reflexivity|].
    assert (O : obs w3 = obs W1) by congruence.
    unfold obs in O. injection O as _ _ _ _ Opl _.
    split; [exact Opl|].
    assert (T3 : size_tracker_ w3 = size_tracker_ w2 /\
                 file_tracker_ w3 =
                   FileTracker.set_current_file_size
                     (SizeTracker.potential (size_tracker_ w2)) (file_tracker_ w2)).
    { clear - E3. destruct w2. unfold record_potential_size, set_current_file_size,
        emit, bind, modify, get in E3. cbn in E3. injection E3 as <-. split; reflexivity. }
    destruct T3 as [T3 F3].
    change (size_tracker_ (set_enabled true w3)) with (size_tracker_ w3).
    change (file_tracker_ (set_enabled true w3)) with (file_tracker_ w3).
    change (log (set_enabled true w3)) with (log w3).
    rewrite T3, Wm, F3, Pm, Fm.
    split; [reflexivity|]. split; [reflexivity|].
    unfold step_adds in S3. rewrite S3, Lm, app_nil_r.
    unfold W1. destruct (opened_frame c (MIN_MCAP_SIZE c) ft1 W0) as (_ & _ & S0).
    unfold step_adds in S0. rewrite S0. fold W1. rewrite Ec. reflexivity.
Qed.

(** A recording that is enabled and disabled with nothing written in
    between leaves exactly one file, which holds the version record and
    nothing else, and no current file. *)
Theorem empty_recording_is_one_file_with_the_version_record cfg rt :
  (forall h, codec_status h = true) ->
  MIN_MCAP_SIZE c <= max_file_size cfg ->
  MIN_MCAP_SIZE c <= max_size cfg ->
  max_size cfg < two64 ->
  MCAP_FILE_OVERHEAD c + metadata_size c (version_metadata c) <=
    N.min (max_file_size cfg) (max_size cfg) - safety_margin cfg ->
  exists w1 w2,
    enable c codec_status (McapWriter_new c cfg FileTracker.create rt) = (Ok tt, w1) /\
    disable c codec_status w1 = (Ok tt, w2) /\
    FileTracker.closed_files (file_tracker_ w2) =
      [(0, MCAP_FILE_OVERHEAD c + metadata_size c (version_metadata c))] /\
    FileTracker.current_file (file_tracker_ w2) = None /\
    landmarks (log w2) =
      [EvNewFile (MIN_MCAP_SIZE c); EvOpen 0 true;
       EvInit (N.min (max_file_size cfg) (max_size cfg)) (safety_margin cfg);
       EvWriteMetadata (version_metadata c) true; EvClose].
Proof.
  intros Hok H1 H2 H3 H4.
  destruct (enable_new_writer cfg rt Hok H1 H2 H3 H4)
    as (w1 & E1 & He & Hp & Hw & Hf & Hl).
  exists w1. eexists. split; [exact E1|].
  rewrite disable_eq, He. split; [reflexivity|].
  assert (Hcur : FileTracker.current_file (file_tracker_ w1) =
                 Some (0, MCAP_FILE_OVERHEAD c + metadata_size c (version_metadata c)))
    by (rewrite Hf; reflexivity).
  destruct (close_records_written c codec_status w1 Hcur) as (wc & Ec & Fc).
  destruct (close_current_file_nts_ok c codec_status w1) as (wc' & Ec' & Sc & _).
  rewrite Ec in Ec'. injection Ec' as <-.
  rewrite Ec. cbn [snd].
  change (file_tracker_ (set_enabled false (set_channels [] wc)))
    with (file_tracker_ wc).
  change (log (set_enabled false (set_channels [] wc))) with (log wc).
  assert (Hs : staged_attachment w1 = None).
  { unfold staged_attachment. rewrite Hp. destruct (record_types_ w1); reflexivity. }
  rewrite Fc. cbn [FileTracker.closed_files FileTracker.current_file].
  unfold written_at_close. rewrite Hs, Hw, Hf. cbn [FileTracker.closed_files app].
  rewrite N.add_0_r. split; [reflexivity|]. split; [reflexivity|].
  unfold step_adds, closing_landmarks in Sc. rewrite Sc, Hs, Hl. reflexivity.
Qed.

End EmptyRecording.

Lemma empty_recording_is_one_file_with_the_version_record_witness :
  exists w1 w2,
    enable c0 codec_ok
      (McapWriter_new c0 (mkSettings 100 1000 0) FileTracker.create true) = (Ok tt, w1) /\
    disable c0 codec_ok w1 = (Ok tt, w2) /\
    FileTracker.closed_files (file_tracker_ w2) =
      [(0, MCAP_FILE_OVERHEAD c0 + metadata_size c0 (version_metadata c0))] /\
    FileTracker.current_file (file_tracker_ w2) = None /\
    landmarks (log w2) =
      [EvNewFile (MIN_MCAP_SIZE c0); EvOpen 0 true;
       EvInit (N.min (max_file_size (mkSettings 100 1000 0))
                 (max_size (mkSettings 100 1000 0)))
         (safety_margin (mkSettings 100 1000 0));
       EvWriteMetadata (version_metadata c0) true; EvClose].
Proof.
  apply (@empty_recording_is_one_file_with_the_version_record c0 codec_ok
           (mkSettings 100 1000 0) true).
  - intro h. reflexivity.
  - vm_compute. discriminate.
  - vm_compute. discriminate.
  - vm_compute. reflexivity.
  - vm_compute. discriminate.
Defined.
